(** * The tar1090 heat-map decoder of [process_adsb_data.py]

    A shallow embedding of [parse_binary_file] and of the numeric helpers it
    is built from, followed by the properties the specification states about
    it.

    Conventions of the embedding:
    - a file is a list of bytes; [np.fromfile(dtype=np.int32)] groups them
      into little-endian 32-bit words and drops an incomplete tail;
    - a NumPy [int32] is a [Z] in [-2^31, 2^31); the [uint32] and [uint8]
      views of the same buffer are computed from it;
    - a NumPy [float64] is a primitive binary64 [float], so that every
      division, product, sum and comparison rounds as it does in the program;
    - a Python [dict] is a [gmap] keyed by strings, a Python [list] that is
      only appended to is a [list] that grows at its end;
    - an [IndexError] is the [Raise] outcome of a small exception monad. *)

From Stdlib Require Import ZArith NArith Lia Floats Uint63 List.
From Stdlib.Strings Require Import Byte Ascii String.
From Stdlib Require Import DecimalString HexadecimalString DecimalN HexadecimalN.
From stdpp Require Import gmap strings sorting.

Set Warnings "-inexact-float".
Open Scope Z_scope.

(** ** Exceptions *)

Inductive exn : Set := IndexError | OSError.

(** The outcome of running a piece of the program: a value, a raised
    exception, or [OutOfFuel] when the iteration budget of a [while] loop of
    the model is used up (shown below never to happen). *)
Inductive outcome (A : Type) : Type :=
| Return (a : A)
| Raise (e : exn)
| OutOfFuel.
Arguments Return {A} a.
Arguments Raise {A} e.
Arguments OutOfFuel {A}.

#[global] Instance outcome_ret : MRet outcome := @Return.
#[global] Instance outcome_bind : MBind outcome := fun A B f m =>
  match m with
  | Return a => f a
  | Raise e => Raise e
  | OutOfFuel => OutOfFuel
  end.

(** [a[k]] on a NumPy array or Python list with a non-negative index. *)
Definition getitem {A : Type} (a : list A) (k : nat) : outcome A :=
  match a !! k with
  | Some x => Return x
  | None => Raise IndexError
  end.

(** ** NumPy views of the file *)

Module Numpy.

Definition byte_val (b : byte) : Z := Z.of_N (Byte.to_N b).

(** Four bytes read as a little-endian unsigned word. *)
Definition le_uint32 (b0 b1 b2 b3 : byte) : Z :=
  byte_val b0 + Z.shiftl (byte_val b1) 8
  + Z.shiftl (byte_val b2) 16 + Z.shiftl (byte_val b3) 24.

(** The same 32 bits as a signed and as an unsigned integer. *)
Definition as_int32 (u : Z) : Z := if u <? 2 ^ 31 then u else u - 2 ^ 32.
Definition as_uint32 (x : Z) : Z := x mod 2 ^ 32.

(** [np.fromfile(file_path, dtype=np.int32)] on the bytes of the file. *)
Fixpoint fromfile (bs : list byte) : list Z :=
  match bs with
  | b0 :: b1 :: b2 :: b3 :: rest =>
      as_int32 (le_uint32 b0 b1 b2 b3) :: fromfile rest
  | _ => []
  end.

(** [points.view(np.uint32)] *)
Definition view_uint32 (points : list Z) : list Z := as_uint32 <$> points.

(** The four bytes of a word, lowest address first. *)
Definition word_bytes (x : Z) : list Z :=
  let u := as_uint32 x in
  [ Z.land u 255; Z.land (Z.shiftr u 8) 255;
    Z.land (Z.shiftr u 16) 255; Z.land (Z.shiftr u 24) 255 ].

(** [points.view(np.uint8)] *)
Definition view_uint8 (points : list Z) : list Z :=
  concat (word_bytes <$> points).

(** An integer scalar converted to [float64] (exact below 2^53). *)
Definition float_of_Z (z : Z) : float :=
  match z with
  | Z0 => 0%float
  | Zpos _ => of_uint63 (Uint63.of_Z z)
  | Zneg _ => PrimFloat.opp (of_uint63 (Uint63.of_Z (- z)))
  end.

End Numpy.
Import Numpy.

(** ** Python string formatting *)

Module Format.

Fixpoint zeros (n : nat) : string :=
  match n with
  | O => EmptyString
  | S n' => String "0" (zeros n')
  end.

(** Left padding with ['0'] up to [width] characters; a longer string is
    left as it is. *)
Definition zfill (width : nat) (s : string) : string :=
  zeros (width - String.length s) ++ s.

(** [f"{n:0{width}x}"] for a non-negative [n]. *)
Definition format_x (width : nat) (n : Z) : string :=
  zfill width (HexadecimalString.NilZero.string_of_uint (N.to_hex_uint (Z.to_N n))).

(** [f"{n:0{width}d}"] for a non-negative [n]. *)
Definition format_d (width : nat) (n : Z) : string :=
  zfill width (DecimalString.NilZero.string_of_uint (N.to_uint (Z.to_N n))).

(** [chr(c)] for a byte value. *)
Definition chr (c : Z) : ascii := ascii_of_N (Z.to_N c).

End Format.
Import Format.

(** ** The decoder *)

(** One row of the result; the field [ac_x] is the dictionary key ["x"]. *)
Record aircraft : Type := {
  ac_t : float;
  ac_hex : string;
  ac_flight : option string;
  ac_squawk : option string;
  ac_lat : float;
  ac_lon : float;
  ac_alt : Z;
  ac_gs : option float;
  ac_type : Z
}.

Definition sentinel : Z := 243235997.

(** [range(0, n, 4)] *)
Definition range4 (n : nat) : list nat :=
  (fun k => 4 * k)%nat <$> seq 0 (Nat.div (n + 3) 4).

(** The marker scan: the flag [found] and the list [slices]. *)
Definition scan_slices (points : list Z) : Z * list nat :=
  foldl (fun '(found, slices) i =>
           match points !! i with
           | Some w => if w =? sentinel then (1, slices ++ [i]) else (found, slices)
           | None => (found, slices)
           end)
        (0, []) (range4 (length points)).

(** [now = pointsU[i + 2] / 1e3 + 4294967.296 * pointsU[i + 1]] *)
Definition frame_time (u1 u2 : Z) : float :=
  (float_of_Z u2 / 1e3 + 4294967.296 * float_of_Z u1)%float.

(** The identifier: six hex digits of the low 24 bits, ['~'] before them
    when bit 24 is set. *)
Definition hex_of (w0 : Z) : string :=
  let hex := format_x 6 (Z.land w0 16777215) in
  if Z.land w0 (Z.shiftl 1 24) =? 0 then hex else "~" ++ hex.

(** [for j in range(0, 8): flight += chr(pointsU8[4 * (i + 2) + j])] *)
Fixpoint flight_loop (u8 : list Z) (base : nat) (js : list nat) (flight : string)
  : outcome string :=
  match js with
  | [] => Return flight
  | j :: js' =>
      c ← getitem u8 (base + j);
      flight_loop u8 base js' (flight ++ String (chr c) EmptyString)
  end.

(** The call sign of an identity record: [None] when its first byte is 0. *)
Definition read_flight (points : list Z) (i : nat) : outcome (option string) :=
  let pointsU8 := view_uint8 points in
  b ← getitem pointsU8 (4 * (i + 2));
  if b =? 0 then Return None
  else flight ← flight_loop pointsU8 (4 * (i + 2)) (seq 0 8) EmptyString;
       Return (Some flight).

(** [f"{lat & 65535:04d}"] *)
Definition squawk_of (lat : Z) : string := format_d 4 (Z.land lat 65535).

(** [(pointsU[i] >> 27) & 31] *)
Definition type_num (w0 : Z) : Z := Z.land (Z.shiftr (as_uint32 w0) 27) 31.

(** The altitude before the final transform: low 16 bits, then the sign
    extension [alt |= -65536] when bit 15 is set. *)
Definition alt_raw (w3 : Z) : Z :=
  let alt := Z.land w3 65535 in
  if Z.land alt 32768 =? 0 then alt else Z.lor alt (-65536).

(** [alt = -123 if alt == -123 else alt * 25] *)
Definition alt_final (alt : Z) : Z := if alt =? -123 then -123 else alt * 25.

(** [gs = points[i + 3] >> 16] *)
Definition gs_raw (w3 : Z) : Z := Z.shiftr w3 16.

(** [gs = None if gs == -1 else gs / 10] *)
Definition gs_final (gs : Z) : option float :=
  if gs =? -1 then None else Some (float_of_Z gs / 10)%float.

(** [lat /= 1e6], [lon /= 1e6] *)
Definition degrees (raw : Z) : float := (float_of_Z raw / 1e6)%float.

(** [lat > -90 and lat < 90 and lon > -180 and lon < 180] *)
Definition in_range (lat lon : float) : bool :=
  ((-90 <? lat) && (lat <? 90) && (-180 <? lon) && (lon <? 180))%float.

(** [(hex in last_seen and now - last_seen[hex] >= 60) or not hex in last_seen] *)
Definition keep (last_seen : gmap string float) (hex : string) (now : float) : bool :=
  match last_seen !! hex with
  | Some last => (60 <=? now - last)%float
  | None => true
  end.

(** [acinfo.get(hex, (None, None))] *)
Definition acinfo_get (acinfo : gmap string (option string * option string))
  (hex : string) : option string * option string :=
  default (None, None) (acinfo !! hex).

(** The three mutable objects of the loops: [acinfo], [last_seen], [data]. *)
Definition state : Type :=
  gmap string (option string * option string) * gmap string float * list aircraft.

(** The dictionary [ac] built for a position that is kept. *)
Definition mk_row (now : float) (w0 lat lon w3 : Z) (flight squawk : option string)
  : aircraft :=
  {| ac_t := now; ac_hex := hex_of w0; ac_flight := flight; ac_squawk := squawk;
     ac_lat := degrees lat; ac_lon := degrees lon;
     ac_alt := alt_final (alt_raw w3); ac_gs := gs_final (gs_raw w3);
     ac_type := type_num w0 |}.

(** The first half of the loop body: an identity record (second word above
    2^30) writes [acinfo[hex]], any other record reads it. *)
Definition identity_part (points : list Z) (i : nat) (w0 lat : Z)
  (acinfo : gmap string (option string * option string))
  : outcome (option string * option string
             * gmap string (option string * option string)) :=
  let hex := hex_of w0 in
  if 1073741824 <? lat then
    flight ← read_flight points i;
    let squawk := squawk_of lat in
    Return (flight, Some squawk, <[hex := (flight, Some squawk)]> acinfo)
  else
    Return ((acinfo_get acinfo hex).1, (acinfo_get acinfo hex).2, acinfo).

(** The body of the [while] loop for the record at word [i]. *)
Definition record_body (points : list Z) (now : float) (i : nat) (st : state)
  : outcome state :=
  let '(acinfo, last_seen, data) := st in
  lat ← getitem points (i + 1);
  lon ← getitem points (i + 2);
  w0 ← getitem points i;
  '(flight, squawk, acinfo) ← identity_part points i w0 lat acinfo;
  if in_range (degrees lat) (degrees lon) then
    w3 ← getitem points (i + 3);
    if keep last_seen (hex_of w0) now then
      let ac := mk_row now w0 lat lon w3 flight squawk in
      Return (acinfo, <[hex_of w0 := now]> last_seen, data ++ [ac])
    else Return (acinfo, last_seen, data)
  else Return (acinfo, last_seen, data).

(** [while i < len(points) and 243235997 != points[i]: ...; i += 4] *)
Fixpoint while_records (fuel : nat) (points : list Z) (now : float) (i : nat)
  (st : state) : outcome state :=
  match fuel with
  | O => OutOfFuel
  | S fuel' =>
      match points !! i with
      | None => Return st
      | Some w =>
          if w =? sentinel then Return st
          else st' ← record_body points now i st;
               while_records fuel' points now (i + 4)%nat st'
      end
  end.

(** [for index in range(len(slices)): ...]; [acinfo] is created anew in
    every iteration, [last_seen] and [data] before the loop. *)
Fixpoint for_slices (points : list Z) (slices : list nat)
  (last_seen : gmap string float) (data : list aircraft)
  : outcome (gmap string float * list aircraft) :=
  match slices with
  | [] => Return (last_seen, data)
  | i :: slices' =>
      let acinfo : gmap string (option string * option string) := ∅ in
      u2 ← getitem (view_uint32 points) (i + 2);
      u1 ← getitem (view_uint32 points) (i + 1);
      let now := frame_time u1 u2 in
      st ← while_records (S (length points)) points now (i + 4)%nat
             (acinfo, last_seen, data);
      for_slices points slices' st.1.2 st.2
  end.

(** What the file system holds at [file_path]. *)
Inductive file : Type :=
| Missing
| Unreadable
| Contents (bytes : list byte).

(** The body of the [try] block once the file is loaded. *)
Definition parse_points (points : list Z) : outcome (list aircraft) :=
  if (length points =? 0)%nat then Return []
  else
    let '(found, slices) := scan_slices points in
    if found =? 0 then Return []
    else r ← for_slices points slices ∅ []; Return r.2.

(** The body of the [try] block; [np.fromfile] raises on a path that
    cannot be read. *)
Definition parse_try (f : file) : outcome (list aircraft) :=
  match f with
  | Missing | Unreadable => Raise OSError
  | Contents bytes => parse_points (fromfile bytes)
  end.

Definition parse_binary_file (f : file) : list aircraft :=
  match f with
  | Missing => []
  | _ =>
      match parse_try f with
      | Return data => data
      | Raise _ => []
      | OutOfFuel => []
      end
  end.

(** The part of [process_directory] that counts: each file of the batch is
    parsed in turn and the rows of a non-empty result are added up (the
    rows themselves go to the database, which is not modelled). *)
Definition add_file (total : nat) (f : file) : nat :=
  let data := parse_binary_file f in
  match data with
  | [] => total
  | _ => (total + length data)%nat
  end.

Definition total_records (files : list file) : nat := foldl add_file 0%nat files.

(** ** Writing files *)

(** The inverse of the views, used to write down the files of the examples
    and to re-encode a record. *)
Module Encode.

Definition byte_of_Z (z : Z) : byte := default x00 (Byte.of_N (Z.to_N z)).

(** The bytes of an array of 32-bit words, little-endian. *)
Definition tobytes (ws : list Z) : list byte := byte_of_Z <$> view_uint8 ws.

(** A frame header: the marker, the two halves of the millisecond clock
    and the reserved word. *)
Definition header (ms_hi ms_lo : Z) : list Z := [sentinel; ms_hi; ms_lo; 0].

Definition file_of_words (ws : list Z) : file := Contents (tobytes ws).

End Encode.
Import Encode.

(** ** Vocabulary of the properties *)

Definition is_int32 (x : Z) : Prop := - 2 ^ 31 <= x < 2 ^ 31.

(** A 16-bit pattern read as a two's-complement number. *)
Definition signed16 (u : Z) : Z := if u <? 2 ^ 15 then u else u - 2 ^ 16.

(** [P] holds of every integer from [x] on, [fuel] of them. *)
Fixpoint all_from (fuel : nat) (x : Z) (P : Z -> bool) : bool :=
  match fuel with
  | O => true
  | S fuel' => P x && all_from fuel' (x + 1) P
  end.

(** The position record of the specification's second scenario, with the
    second word [lat] left open. *)
Definition position_0abcde (lat : Z) : list Z :=
  [0x0ABCDE; lat; 8000000; 2500 * 65536 + 4].

(** The same position with the first and the last word left open. *)
Definition position_at_47N_8E (w0 w3 : Z) : list Z := [w0; 47000000; 8000000; w3].

(** The number a string of decimal digits stands for. *)
Definition decimal_value (s : string) : option Z :=
  (fun d => Z.of_N (N.of_uint d)) <$> DecimalString.NilEmpty.uint_of_string s.

(** The times of the rows of one aircraft, in the order of the result. *)
Definition track (h : string) (data : list aircraft) : list float :=
  ac_t <$> filter (fun row => ac_hex row = h) data.

(** Each time is at least 60 after the one before it, by the test the
    program itself applies: [now - last >= 60] in double precision. *)
Fixpoint spaced60 (ts : list float) : Prop :=
  match ts with
  | t1 :: ((t2 :: _) as rest) => (60 <=? t2 - t1)%float = true /\ spaced60 rest
  | _ => True
  end.

(** Three frames at 1000 s, 1030 s and 1061 s, each with one position of
    the same aircraft. *)
Definition three_positions : file :=
  file_of_words (header 0 1000000 ++ position_0abcde 47000000 ++
                 header 0 1030000 ++ position_0abcde 47000000 ++
                 header 0 1061000 ++ position_0abcde 47000000).

(** One frame with a complete position and, after it, a record cut off
    after its second word. *)
Definition truncated_file : file :=
  file_of_words (header 0 1000000 ++ position_0abcde 47000000 ++
                 [0x0ABCDF; 47000000]).

(** The same file without the cut-off record. *)
Definition whole_file : file :=
  file_of_words (header 0 1000000 ++ position_0abcde 47000000).

(** Three frames at 1000 s, 1030 s and 1061 s with one position of the
    same aircraft each, the middle one at latitude 90 and so out of range. *)
Definition out_of_range_between : file :=
  file_of_words (header 0 1000000 ++ position_0abcde 47000000 ++
                 header 0 1030000 ++ position_0abcde 90000000 ++
                 header 0 1061000 ++ position_0abcde 47000000).

(** *** The state table of a frame *)

(** What the record at word [j] does to the state table: an identity
    record whose call sign can be read puts its pair under its hex. *)
Definition identity_update (points : list Z) (j : nat)
  (tbl : gmap string (option string * option string))
  : gmap string (option string * option string) :=
  match points !! j, points !! (j + 1)%nat with
  | Some w0, Some lat =>
      if 1073741824 <? lat then
        match read_flight points j with
        | Return flight => <[hex_of w0 := (flight, Some (squawk_of lat))]> tbl
        | _ => tbl
        end
      else tbl
  | _, _ => tbl
  end.

(** The table built, from nothing, by the first [n] records that follow
    the header at word [s]. *)
Fixpoint frame_table (points : list Z) (s : nat) (n : nat)
  : gmap string (option string * option string) :=
  match n with
  | O => ∅
  | S n' => identity_update points (s + 4 + 4 * n')%nat (frame_table points s n')
  end.

(** [row] is the row of record number [k] of the frame whose header is at
    word [s]: the marker is at [s], none of the records up to [k] starts
    with the marker, the time is the header's, and the call sign and
    squawk are those the frame's own table holds for the record's hex once
    the record has been read. *)
Definition frame_row (points : list Z) (s k : nat) (row : aircraft) : Prop :=
  exists u1 u2 w0 lat lon w3,
    points !! s = Some sentinel /\
    view_uint32 points !! (s + 1)%nat = Some u1 /\
    view_uint32 points !! (s + 2)%nat = Some u2 /\
    (forall k', (k' <= k)%nat -> points !! (s + 4 + 4 * k')%nat <> Some sentinel) /\
    points !! (s + 4 + 4 * k)%nat = Some w0 /\
    points !! (s + 4 + 4 * k + 1)%nat = Some lat /\
    points !! (s + 4 + 4 * k + 2)%nat = Some lon /\
    points !! (s + 4 + 4 * k + 3)%nat = Some w3 /\
    let tbl := frame_table points s (S k) in
    row = mk_row (frame_time u1 u2) w0 lat lon w3
            (acinfo_get tbl (hex_of w0)).1 (acinfo_get tbl (hex_of w0)).2.

(** The identity record of the specification's third scenario: call sign
    "BAW123  ", squawk 1800, for the aircraft 0abcde. *)
Definition identity_0abcde : list Z :=
  [0x0ABCDE; 1073741824 + 65536 + 1800; 0x31574142; 0x20203332].

(** The identity in one frame, a position of the same aircraft in the next. *)
Definition identity_then_next_frame : list Z :=
  header 0 1000000 ++ identity_0abcde ++
  header 0 1001000 ++ position_0abcde 47000000.

(** The identity and the position in the same frame. *)
Definition identity_then_same_frame : list Z :=
  header 0 1000000 ++ identity_0abcde ++ position_0abcde 47000000.

(** Two frames 30 s apart with a position of the same aircraft in each. *)
Definition two_frames_30s : list Z :=
  header 0 1000000 ++ position_0abcde 47000000 ++
  header 0 1030000 ++ position_0abcde 47000000.

(** The invariant of the two loops behind the spacing: [last_seen] holds,
    for every aircraft, the time of its latest row, and the times of its
    rows are spaced. *)
Definition stamped (seen : gmap string float) (data : list aircraft) : Prop :=
  forall h, seen !! h = last (track h data) /\ spaced60 (track h data).

(** *** The raw fields of a record and their layout *)

(** The six values the loop body reads from the four words of a record,
    before the final transforms of altitude, speed and coordinates. *)
Record raw_record : Type := {
  raw_hex : string; raw_type : Z; raw_lat : Z; raw_lon : Z; raw_alt : Z; raw_gs : Z
}.

(** The fields as the loop body computes them ([hex], [type_num], [lat],
    [lon], [alt] after the sign extension, [gs] after the shift). *)
Definition decode_raw (w0 w1 w2 w3 : Z) : raw_record :=
  {| raw_hex := hex_of w0; raw_type := type_num w0; raw_lat := w1; raw_lon := w2;
     raw_alt := alt_raw w3; raw_gs := gs_raw w3 |}.

(** The layout of a record as the specification gives it, read backwards:
    the number a string of hex digits stands for. *)
Definition hex_value (s : string) : Z :=
  match HexadecimalString.NilEmpty.uint_of_string s with
  | Some d => Z.of_N (N.of_hex_uint d)
  | None => 0
  end.

(** The low 25 bits of the first word from the identifier: the 24-bit
    address, and bit 24 when the identifier starts with a tilde. *)
Definition layout_hex (hex : string) : Z :=
  match hex with
  | String c digits =>
      if Ascii.eqb c "~" then hex_value digits + 2 ^ 24 else hex_value hex
  | EmptyString => 0
  end.

(** The sixteen bytes of a record from its six fields: identifier and type
    in the first word (bits 25 and 26 are given by no field and left 0),
    the coordinates in the second and third, the altitude in the low half
    and the speed in the high half of the fourth. *)
Definition layout_encode (r : raw_record) : list byte :=
  tobytes [ layout_hex (raw_hex r) + raw_type r * 2 ^ 27;
            raw_lat r; raw_lon r;
            raw_alt r mod 2 ^ 16 + raw_gs r * 2 ^ 16 ].

(** *** Vocabulary of the further properties *)

(** One of the sixteen characters of lower-case hexadecimal. *)
Definition lower_hex_char (c : ascii) : bool :=
  existsb (Ascii.eqb c) (list_ascii_of_string "0123456789abcdef").

(** [P] holds of every character of [s]. *)
Definition all_chars (P : ascii -> bool) (s : string) : bool :=
  forallb P (list_ascii_of_string s).

(** The string whose characters have the given byte values. *)
Definition string_of_bytes (bs : list Z) : string :=
  string_of_list_ascii (chr <$> bs).

(** The run ends normally. *)
Definition returns {A : Type} (o : outcome A) : Prop := exists x, o = Return x.

(** The run raises nothing but [IndexError]. *)
Definition raises_only_IndexError {A : Type} (o : outcome A) : Prop :=
  forall e, o = Raise e -> e = IndexError.

(** A call sign, when there is one, is the eight bytes of two words, the
    first of them not 0. *)
Definition callsign_shape (fl : option string) : Prop :=
  match fl with
  | None => True
  | Some s =>
      String.length s = 8%nat /\
      exists w2 w3, s = string_of_bytes (word_bytes w2 ++ word_bytes w3) /\
                    Z.land (as_uint32 w2) 255 <> 0
  end.

(** A squawk, when there is one, is the decimal rendering of a 16-bit
    value, four characters long below 10000 and five from there on. *)
Definition squawk_shape (sq : option string) : Prop :=
  match sq with
  | None => True
  | Some s =>
      exists v, 0 <= v < 65536 /\ s = format_d 4 v /\
                decimal_value s = Some v /\
                String.length s = (if v <? 10000 then 4%nat else 5%nat)
  end.

(** A pair of the state table: both shapes, and no call sign without a
    squawk. *)
Definition identity_shape (p : option string * option string) : Prop :=
  callsign_shape p.1 /\ squawk_shape p.2 /\ (p.2 = None -> p.1 = None).

(** No time is followed by itself. *)
Fixpoint no_repeat (ts : list float) : Prop :=
  match ts with
  | t1 :: ((t2 :: _) as rest) => t1 <> t2 /\ no_repeat rest
  | _ => True
  end.

(** One whole frame followed by a marker and one more word. *)
Definition cut_header_words : list Z :=
  header 0 1000000 ++ position_0abcde 47000000 ++ [sentinel; 0].

(** ** The batch: [process_directory] *)

(** What a path leads to: a regular file with its bytes (none when it
    cannot be read), or a directory with its entries in the order
    [os.listdir] and [glob.glob] give them. File names are strings of
    characters below U+0100, shorter than the length at which [int] gives
    up; the path of the root has no character [glob] reads as a pattern;
    and nothing but the run itself touches the tree while it runs. *)
#[warnings="-register-all"] Inductive node : Type :=
| RegularFile (contents : option (list byte))
| Folder (entries : list (string * node)).

(** [os.path.isdir] *)
Definition isdir (n : node) : bool :=
  match n with
  | Folder _ => true
  | RegularFile _ => false
  end.

(** What [parse_binary_file] meets at an entry: [np.fromfile] raises on a
    directory as on a file it cannot read. *)
Definition file_at (n : node) : file :=
  match n with
  | RegularFile (Some bytes) => Contents bytes
  | RegularFile None => Unreadable
  | Folder _ => Unreadable
  end.

(** [str.isdigit] on one character below U+0100: the ten ASCII digits and
    the superscripts two, three and one (U+00B2, U+00B3, U+00B9). Names
    with a character from U+0100 on are not modelled: among those
    characters are digits [int] reads (U+0663) and digits [isdigit]
    accepts and [int] rejects (U+2074, U+2460). *)
Definition isdigit_char (c : ascii) : bool :=
  let n := N_of_ascii c in
  (((48 <=? n) && (n <=? 57)) || (n =? 178) || (n =? 179) || (n =? 185))%N.

(** The two kinds of digit below U+0100: those [int] reads and those it
    raises [ValueError] on. *)
Definition decimal_char (c : ascii) : bool :=
  let n := N_of_ascii c in ((48 <=? n) && (n <=? 57))%N.

Definition superscript (c : ascii) : bool :=
  let n := N_of_ascii c in ((n =? 178) || (n =? 179) || (n =? 185))%N.

(** [s.isdigit()]: every character is a digit and there is at least one. *)
Definition isdigit (s : string) : bool :=
  match s with
  | EmptyString => false
  | _ => all_chars isdigit_char s
  end.

(** [s.isdigit() and 0 <= int(s) <= 47]; [None] is the [ValueError] of
    [int] on a digit that is not decimal (a superscript). *)
Definition is_slot (filename : string) : option bool :=
  if isdigit filename then
    match decimal_value filename with
    | Some v => Some ((0 <=? v) && (v <=? 47))
    | None => None
    end
  else Some false.

(** [int(os.path.basename(x))], the sort key, on a name that passed the
    filter. *)
Definition slot_of (filename : string) : Z := default 0 (decimal_value filename).

(** [item.count(c)] for a single character. *)
Fixpoint count_char (c : ascii) (s : string) : nat :=
  match s with
  | EmptyString => O
  | String c' s' => if Ascii.eqb c' c then S (count_char c s') else count_char c s'
  end.

(** [sorted] and [list.sort]: Python's sort is stable, so it gives the
    list this insertion sort gives. *)
Fixpoint insert_sorted {A : Type} (le : A -> A -> bool) (x : A) (l : list A) : list A :=
  match l with
  | [] => [x]
  | y :: l' => if le x y then x :: l else y :: insert_sorted le x l'
  end.

Definition sort_by {A : Type} (le : A -> A -> bool) (l : list A) : list A :=
  foldr (insert_sorted le) [] l.

(** [glob.glob(os.path.join(date_dir, "*"))]: the entries whose name does
    not start with a dot. *)
Definition hidden (name : string) : bool :=
  match name with
  | String c _ => Ascii.eqb c "."
  | EmptyString => false
  end.

Definition glob_star (entries : list (string * node)) : list (string * node) :=
  filter (fun e => hidden e.1 = false) entries.

(** The loop that keeps the numeric files; [None] when [int] raises. *)
Fixpoint numeric_files (files : list (string * node)) : option (list (string * node)) :=
  match files with
  | [] => Some []
  | e :: rest =>
      match is_slot e.1 with
      | None => None
      | Some keep_it =>
          match numeric_files rest with
          | None => None
          | Some kept => Some (if keep_it then e :: kept else kept)
          end
      end
  end.

Inductive batch_exn : Set := ValueError | LoaderError.

(** The variables of the loops: [total_records], [files_to_cleanup] (each
    file by its partition, [None] for the root, and its name) and the
    batches the database has taken. *)
Record batch : Type := {
  b_total : nat;
  b_cleanup : list (option string * string);
  b_inserted : list (list aircraft)
}.

(** What a run leaves: the count it returns or the exception it raises,
    the batches the database has taken and the files [os.remove] was
    called on. *)
Record run : Type := {
  returned : batch_exn + nat;
  db_inserted : list (list aircraft);
  remove_calls : list (option string * string)
}.

Section ProcessDirectory.

(** Whether [datetime.datetime.strptime(item, '%Y-%m-%d')] returns. *)
Variable strptime_ok : string -> bool.
(** Whether [df.to_sql] returns for these rows, after the batches this run
    has inserted before. *)
Variable to_sql_ok : list (list aircraft) -> list aircraft -> bool.

Definition is_date_dir (e : string * node) : bool :=
  isdir e.2 && (String.length e.1 =? 10)%nat && (count_char "-" e.1 =? 2)%nat
  && strptime_ok e.1.

(** The date directories of the root, each with its entries. *)
Definition date_dirs (entries : list (string * node))
  : list (string * list (string * node)) :=
  omap (fun e => match e.2 with
                 | Folder es => if is_date_dir e then Some (e.1, es) else None
                 | RegularFile _ => None
                 end) entries.

(** The partitions in the order of the outer loop: the date directories
    sorted by name, or the root alone when there is none. *)
Definition partitions (entries : list (string * node))
  : list (option string * list (string * node)) :=
  match date_dirs entries with
  | [] => [(None, entries)]
  | dirs => (fun d => (Some d.1, d.2)) <$> sort_by (fun a b => String.leb a.1 b.1) dirs
  end.

(** The inner loop over the numeric files of one partition. *)
Fixpoint for_files (cleanup_files : bool) (label : option string)
  (files : list (string * node)) (st : batch) : batch * option batch_exn :=
  match files with
  | [] => (st, None)
  | e :: rest =>
      let data := parse_binary_file (file_at e.2) in
      let after_insert :=
        match data with
        | [] => Some st
        | _ => if to_sql_ok (b_inserted st) data
               then Some {| b_total := b_total st + length data;
                            b_cleanup := b_cleanup st;
                            b_inserted := b_inserted st ++ [data] |}
               else None
        end in
      match after_insert with
      | None => (st, Some LoaderError)
      | Some st1 =>
          let st2 := if cleanup_files
                     then {| b_total := b_total st1;
                             b_cleanup := b_cleanup st1 ++ [(label, e.1)];
                             b_inserted := b_inserted st1 |}
                     else st1 in
          for_files cleanup_files label rest st2
      end
  end.

(** The numeric files of a partition in the order they are parsed; [None]
    when [int] raises. *)
Definition slot_files (entries : list (string * node)) : option (list (string * node)) :=
  (fun kept => sort_by (fun a b => slot_of a.1 <=? slot_of b.1) kept)
    <$> numeric_files (glob_star entries).

(** The outer loop. *)
Fixpoint for_date_dirs (cleanup_files : bool)
  (parts : list (option string * list (string * node))) (st : batch)
  : batch * option batch_exn :=
  match parts with
  | [] => (st, None)
  | (label, entries) :: rest =>
      match slot_files entries with
      | None => (st, Some ValueError)
      | Some files =>
          match for_files cleanup_files label files st with
          | (st', None) => for_date_dirs cleanup_files rest st'
          | (st', Some e) => (st', Some e)
          end
      end
  end.

Definition process_directory (root : option node) (cleanup_files : bool) : run :=
  match root with
  | None => {| returned := inr O; db_inserted := []; remove_calls := [] |}
  | Some (RegularFile _) => {| returned := inr O; db_inserted := []; remove_calls := [] |}
  | Some (Folder entries) =>
      match for_date_dirs cleanup_files (partitions entries)
              {| b_total := 0; b_cleanup := []; b_inserted := [] |} with
      | (st, Some e) =>
          {| returned := inl e; db_inserted := b_inserted st; remove_calls := [] |}
      | (st, None) =>
          {| returned := inr (b_total st); db_inserted := b_inserted st;
             remove_calls := if cleanup_files then b_cleanup st else [] |}
      end
  end.

(** ** The command: [main] *)




(** Whether the set-up of the log ([setup_logging] and, with [--verbose],
    [logger.remove] and [logger.add]), [create_engine],
    [create_indexes_and_finalize] and [cleanup_temp_table] return. *)
Variable setup_logging_ok : bool.
Variable create_engine_ok : bool.
Variable finalize_ok : bool.
Variable drop_ok : bool.



(** ** Vocabulary of the batch *)

(** The numeric files of the partitions, each with its partition, in the
    order of the two loops; [None] when [int] raises. *)
Definition tagged (parts : list (option string * list (string * node)))
  : option (list (option string * (string * node))) :=
  (fun ps => concat ps)
    <$> mapM (fun p => (fun files => (fun e => (p.1, e)) <$> files) <$> slot_files p.2) parts.

(** The files a run parses when nothing stops it. *)
Definition schedule (entries : list (string * node))
  : option (list (option string * (string * node))) :=
  tagged (partitions entries).

(** What the loops keep true of their variables. *)
Definition batch_inv (st : batch) : Prop :=
  b_total st = length (concat (b_inserted st)) /\
  Forall (fun rows => rows <> []) (b_inserted st).

End ProcessDirectory.

(** A name the filter keeps: a decimal numeral, leading zeros allowed, of
    value at most 47. *)
Definition slot_name (name : string) : Prop :=
  name <> EmptyString /\ exists v, decimal_value name = Some v /\ v <= 47.

(** A name on which the filter raises: [isdigit] holds and [int] fails. *)
Definition bad_name (name : string) : Prop :=
  isdigit name = true /\ decimal_value name = None.

(** The rows of a scheduled file and the path [os.remove] gets. *)
Definition rows_of (x : option string * (string * node)) : list aircraft :=
  parse_binary_file (file_at x.2.2).

Definition path_of (x : option string * (string * node)) : option string * string :=
  (x.1, x.2.1).

(** The order of a run, on the paths: partitions by name, and inside a
    partition files by the number they are named by. *)
Definition runs_before (x y : option string * string) : Prop :=
  match x.1, y.1 with
  | Some a, Some b =>
      if String.eqb a b then slot_of x.2 <= slot_of y.2 else String.leb a b = true
  | None, None => slot_of x.2 <= slot_of y.2
  | _, _ => False
  end.

(** The labels of two partitions, the first before the second. *)
Definition label_lt (a b : option string) : Prop :=
  match a, b with
  | Some x, Some y => x <> y /\ String.leb x y = true
  | _, _ => False
  end.

(** A directory tree for the examples: two date directories out of order,
    the later one with slot files named 10 and 9, a hidden file, a name
    out of range and a name that is no number; the earlier one with an
    unreadable slot file; and, directly in the root, a slot file and a
    file that is none. *)
Definition example_root : list (string * node) :=
  [("2024-01-02",
    Folder [("10", RegularFile (Some (tobytes (header 0 1000000 ++ position_0abcde 47000000))));
            ("9", RegularFile (Some (tobytes (header 0 1000000 ++ position_0abcde 47000000))));
            (".7", RegularFile (Some []));
            ("48", RegularFile (Some []));
            ("notes.txt", RegularFile (Some []))]);
   ("2024-01-01", Folder [("07", RegularFile None)]);
   ("3", RegularFile (Some (tobytes (header 0 1000000 ++ position_0abcde 47000000))));
   ("README", RegularFile (Some []))].

(** The run over that tree with [cleanup_files], every date accepted and
    every insertion too. *)
Definition example_run : run :=
  process_directory (fun _ => true) (fun _ _ => true) (Some (Folder example_root)) true.

(** ** Reading the outcome monad *)

Lemma bind_Return_inv {A B : Type} (m : outcome A) (f : A -> outcome B) (b : B) :
  m ≫= f = Return b -> exists a, m = Return a /\ f a = Return b.
Proof. destruct m; simpl; [eauto | discriminate | discriminate]. Qed.

Lemma bind_fuel {A B : Type} (m : outcome A) (f : A -> outcome B) :
  m <> OutOfFuel -> (forall a, f a <> OutOfFuel) -> m ≫= f <> OutOfFuel.
Proof. destruct m; simpl; [auto | discriminate | congruence]. Qed.

Lemma getitem_Return {A : Type} (a : list A) (k : nat) (x : A) :
  getitem a k = Return x <-> a !! k = Some x.
Proof. unfold getitem. destruct (a !! k); split; congruence. Qed.

Lemma getitem_fuel {A : Type} (a : list A) (k : nat) : getitem a k <> OutOfFuel.
Proof. unfold getitem. destruct (a !! k); discriminate. Qed.

(** ** One record *)

(** What a run of the loop body that returns has done: it has read the
    first three words, gone through the identity half, and then either
    appended one row and stamped [last_seen], or left both as they were. *)
Lemma record_body_Return points now i acinfo last data st' :
  record_body points now i (acinfo, last, data) = Return st' ->
  exists w0 lat lon fl sq acinfo',
    points !! i = Some w0 /\ points !! (i + 1)%nat = Some lat /\
    points !! (i + 2)%nat = Some lon /\
    identity_part points i w0 lat acinfo = Return (fl, sq, acinfo') /\
    ((exists w3, in_range (degrees lat) (degrees lon) = true /\
                 points !! (i + 3)%nat = Some w3 /\
                 keep last (hex_of w0) now = true /\
                 st' = (acinfo', <[hex_of w0 := now]> last,
                        data ++ [mk_row now w0 lat lon w3 fl sq]))
     \/ ((in_range (degrees lat) (degrees lon) = false \/
          keep last (hex_of w0) now = false) /\
         st' = (acinfo', last, data))).
Proof.
  unfold record_body. intros H.
  apply bind_Return_inv in H as (lat & Hlat & H).
  apply bind_Return_inv in H as (lon & Hlon & H).
  apply bind_Return_inv in H as (w0 & Hw0 & H).
  apply bind_Return_inv in H as ([[fl sq] acinfo'] & Hid & H).
  apply getitem_Return in Hlat, Hlon, Hw0.
  exists w0, lat, lon, fl, sq, acinfo'. repeat (split; [assumption|]).
  destruct (in_range (degrees lat) (degrees lon)) eqn:Hr.
  - apply bind_Return_inv in H as (w3 & Hw3 & H).
    apply getitem_Return in Hw3.
    destruct (keep last (hex_of w0) now) eqn:Hk.
    + left. exists w3. repeat split; try assumption. congruence.
    + right. split; [by right | congruence].
  - right. split; [by left | congruence].
Qed.

Lemma flight_loop_fuel u8 base js flight : flight_loop u8 base js flight <> OutOfFuel.
Proof.
  revert flight. induction js as [|j js IH]; intros flight; simpl; [discriminate|].
  apply bind_fuel; [apply getitem_fuel | auto].
Qed.

Lemma read_flight_fuel points i : read_flight points i <> OutOfFuel.
Proof.
  unfold read_flight. apply bind_fuel; [apply getitem_fuel|].
  intros b. destruct (b =? 0); [discriminate|].
  apply bind_fuel; [apply flight_loop_fuel | discriminate].
Qed.

Lemma identity_part_fuel points i w0 lat acinfo :
  identity_part points i w0 lat acinfo <> OutOfFuel.
Proof.
  unfold identity_part. destruct (1073741824 <? lat); [|discriminate].
  apply bind_fuel; [apply read_flight_fuel | discriminate].
Qed.

Lemma record_body_fuel points now i st : record_body points now i st <> OutOfFuel.
Proof.
  destruct st as [[acinfo last] data]. unfold record_body.
  apply bind_fuel; [apply getitem_fuel | intros lat].
  apply bind_fuel; [apply getitem_fuel | intros lon].
  apply bind_fuel; [apply getitem_fuel | intros w0].
  apply bind_fuel; [apply identity_part_fuel | intros [[fl sq] acinfo']].
  destruct (in_range _ _); [|discriminate].
  apply bind_fuel; [apply getitem_fuel | intros w3].
  destruct (keep _ _ _); discriminate.
Qed.

(** ** The loops terminate *)

(** Every pass of the [while] loop moves [i] four words on, so a budget of
    one pass per word (and one more for the exit test) is never used up. *)
Lemma while_records_fuel points now fuel : forall i st,
  (length points <= i + 4 * fuel)%nat ->
  while_records (S fuel) points now i st <> OutOfFuel.
Proof.
  induction fuel as [|fuel IH]; intros i st Hlen; simpl.
  - destruct (points !! i) eqn:Hi; [|discriminate].
    apply lookup_lt_Some in Hi. lia.
  - destruct (points !! i) eqn:Hi; [|discriminate].
    destruct (z =? sentinel); [discriminate|].
    apply bind_fuel; [apply record_body_fuel | intros st'].
    apply IH. lia.
Qed.

Lemma for_slices_fuel points slices : forall last data,
  for_slices points slices last data <> OutOfFuel.
Proof.
  induction slices as [|i slices IH]; intros last data; [discriminate|].
  cbn [for_slices].
  apply bind_fuel; [apply getitem_fuel | intros u2].
  apply bind_fuel; [apply getitem_fuel | intros u1].
  apply bind_fuel; [apply while_records_fuel; lia | intros st; apply IH].
Qed.

Lemma parse_try_fuel f : parse_try f <> OutOfFuel.
Proof.
  destruct f as [| |bytes]; simpl; try discriminate. unfold parse_points.
  destruct (length (fromfile bytes) =? 0)%nat; [discriminate|].
  destruct (scan_slices (fromfile bytes)) as [found slices].
  destruct (found =? 0); [discriminate|].
  apply bind_fuel; [apply for_slices_fuel | discriminate].
Qed.

(** ** Words of a file *)

Lemma byte_val_range b : 0 <= byte_val b < 256.
Proof. unfold byte_val. pose proof (Byte.to_N_bounded b). lia. Qed.

Lemma le_uint32_range b0 b1 b2 b3 : 0 <= le_uint32 b0 b1 b2 b3 < 2 ^ 32.
Proof.
  unfold le_uint32. rewrite !Z.shiftl_mul_pow2 by lia.
  pose proof (byte_val_range b0). pose proof (byte_val_range b1).
  pose proof (byte_val_range b2). pose proof (byte_val_range b3).
  change (2 ^ 8) with 256. change (2 ^ 16) with 65536.
  change (2 ^ 24) with 16777216. change (2 ^ 32) with 4294967296. lia.
Qed.

Lemma as_int32_range u : 0 <= u < 2 ^ 32 -> is_int32 (as_int32 u).
Proof.
  unfold is_int32, as_int32. intros Hu.
  change (2 ^ 32) with 4294967296 in *. change (2 ^ 31) with 2147483648 in *.
  destruct (Z.ltb_spec u 2147483648); lia.
Qed.

(** Induction four bytes at a time, the way [fromfile] recurses. *)
Lemma fromfile_ind (P : list byte -> Prop) :
  (forall bs, (length bs < 4)%nat -> P bs) ->
  (forall b0 b1 b2 b3 rest, P rest -> P (b0 :: b1 :: b2 :: b3 :: rest)) ->
  forall bs, P bs.
Proof.
  intros Hshort Hstep.
  assert (H : forall n bs, (length bs <= n)%nat -> P bs).
  { induction n as [|n IH]; intros bs Hn.
    - apply Hshort. lia.
    - destruct bs as [|b0 [|b1 [|b2 [|b3 rest]]]];
        try (apply Hshort; simpl; lia).
      apply Hstep, IH. simpl in Hn. lia. }
  intros bs. by apply (H (length bs)).
Qed.

Lemma fromfile_short bs : (length bs < 4)%nat -> fromfile bs = [].
Proof.
  destruct bs as [|b0 [|b1 [|b2 [|b3 rest]]]]; simpl; intros; try reflexivity; lia.
Qed.

Lemma fromfile_int32 bs : Forall is_int32 (fromfile bs).
Proof.
  induction bs as [bs Hs | b0 b1 b2 b3 rest IH] using fromfile_ind.
  - rewrite fromfile_short by assumption. constructor.
  - simpl. constructor; [|assumption].
    apply as_int32_range, le_uint32_range.
Qed.

Lemma fromfile_length bs : length (fromfile bs) = Nat.div (length bs) 4.
Proof.
  induction bs as [bs Hs | b0 b1 b2 b3 rest IH] using fromfile_ind.
  - rewrite fromfile_short by assumption. by rewrite Nat.div_small.
  - cbn [fromfile length]. rewrite IH.
    change (S (S (S (S (length rest))))) with (4 + length rest)%nat.
    replace (4 + length rest)%nat with (length rest + 1 * 4)%nat by lia.
    rewrite Nat.div_add by lia. lia.
Qed.

(** ** Invariants of the two loops *)

Lemma for_slices_cons points i slices last data :
  for_slices points (i :: slices) last data =
  u2 ← getitem (view_uint32 points) (i + 2);
  u1 ← getitem (view_uint32 points) (i + 1);
  st ← while_records (S (length points)) points (frame_time u1 u2) (i + 4)%nat
         (∅, last, data);
  for_slices points slices st.1.2 st.2.
Proof. reflexivity. Qed.

Section Invariant.

Variable points : list Z.
Variable Inv : gmap string float -> list aircraft -> Prop.

(** The only change the loops make to [last_seen] and [data]: a record
    read at some index [i], in range and let through by [keep], adds its
    row and stamps its time. *)
Hypothesis Inv_emit : forall last data now i w0 lat lon w3 fl sq,
  Inv last data ->
  points !! i = Some w0 -> points !! (i + 1)%nat = Some lat ->
  points !! (i + 2)%nat = Some lon -> points !! (i + 3)%nat = Some w3 ->
  in_range (degrees lat) (degrees lon) = true ->
  keep last (hex_of w0) now = true ->
  Inv (<[hex_of w0 := now]> last) (data ++ [mk_row now w0 lat lon w3 fl sq]).

Lemma record_body_inv now i st st' :
  record_body points now i st = Return st' ->
  Inv st.1.2 st.2 -> Inv st'.1.2 st'.2.
Proof.
  destruct st as [[acinfo last] data]. intros H HI.
  apply record_body_Return in H
    as (w0 & lat & lon & fl & sq & acinfo' & H0 & H1 & H2 & _ & H).
  destruct H as [(w3 & Hr & H3 & Hk & ->) | [_ ->]]; simpl in *; eauto.
Qed.

Lemma while_records_inv now fuel : forall i st st',
  while_records fuel points now i st = Return st' ->
  Inv st.1.2 st.2 -> Inv st'.1.2 st'.2.
Proof.
  induction fuel as [|fuel IH]; intros i st st' H HI; simpl in H; [discriminate|].
  destruct (points !! i); [|congruence].
  destruct (z =? sentinel); [congruence|].
  apply bind_Return_inv in H as (st1 & Hb & H).
  eapply IH; [exact H|]. eapply record_body_inv; eauto.
Qed.

Lemma for_slices_inv slices : forall last data r,
  for_slices points slices last data = Return r ->
  Inv last data -> Inv r.1 r.2.
Proof.
  induction slices as [|i slices IH]; intros last data r H HI.
  - by inversion H.
  - rewrite for_slices_cons in H.
    apply bind_Return_inv in H as (u2 & _ & H).
    apply bind_Return_inv in H as (u1 & _ & H).
    apply bind_Return_inv in H as (st & Hw & H).
    eapply IH; [exact H|].
    by apply (while_records_inv _ _ _ _ _ Hw).
Qed.

End Invariant.

(** An invariant of [last_seen] and [data] that holds when both are empty
    and is kept by every emission holds of what [parse_binary_file] returns. *)
Lemma parse_binary_file_inv (Inv : gmap string float -> list aircraft -> Prop) :
  Inv ∅ [] ->
  (forall last data now w0 lat lon w3 fl sq,
     Inv last data ->
     is_int32 w0 -> is_int32 lat -> is_int32 lon -> is_int32 w3 ->
     in_range (degrees lat) (degrees lon) = true ->
     keep last (hex_of w0) now = true ->
     Inv (<[hex_of w0 := now]> last) (data ++ [mk_row now w0 lat lon w3 fl sq])) ->
  forall f, exists last, Inv last (parse_binary_file f).
Proof.
  intros H0 Hstep f.
  destruct f as [| |bytes]; simpl; try (by exists ∅). unfold parse_points.
  destruct (length (fromfile bytes) =? 0)%nat; [by exists ∅|].
  destruct (scan_slices (fromfile bytes)) as [found slices].
  destruct (found =? 0); [by exists ∅|].
  destruct (for_slices (fromfile bytes) slices ∅ []) as [r| |] eqn:Hf;
    simpl; try (by exists ∅).
  exists r.1. eapply (for_slices_inv (fromfile bytes) Inv); [|exact Hf|exact H0].
  intros last data now i w0 lat lon w3 fl sq HI L0 L1 L2 L3 Hr Hk.
  pose proof (fromfile_int32 bytes) as Hall.
  rewrite Forall_lookup in Hall.
  apply Hstep; eauto.
Qed.

(** ** Rows of the result *)

(** Every row of the result is the row of some record of the file that
    passed the coordinate test. *)
Lemma parse_binary_file_rows (P : aircraft -> Prop) :
  (forall now w0 lat lon w3 fl sq,
     is_int32 w0 -> is_int32 lat -> is_int32 lon -> is_int32 w3 ->
     in_range (degrees lat) (degrees lon) = true ->
     P (mk_row now w0 lat lon w3 fl sq)) ->
  forall f, Forall P (parse_binary_file f).
Proof.
  intros HP f.
  destruct (parse_binary_file_inv (fun _ data => Forall P data)) with (f := f)
    as [_ H]; [constructor | | exact H].
  intros last data now w0 lat lon w3 fl sq HI ? ? ? ? Hr _.
  apply Forall_app. split; [exact HI|]. repeat constructor. by apply HP.
Qed.

Lemma all_from_spec P fuel : forall x,
  all_from fuel x P = true ->
  forall y, x <= y < x + Z.of_nat fuel -> P y = true.
Proof.
  induction fuel as [|fuel IH]; intros x H y Hy; [lia|].
  simpl in H. apply andb_prop in H as [Hx H].
  destruct (Z.eq_dec y x) as [->|Hne]; [exact Hx|].
  apply (IH (x + 1)); [exact H | lia].
Qed.

(** ** Coordinates *)

Lemma in_range_true lat lon :
  in_range lat lon = true <->
  ((-90 <? lat) = true /\ (lat <? 90) = true /\
   (-180 <? lon) = true /\ (lon <? 180) = true)%float.
Proof. unfold in_range. rewrite !andb_true_iff. tauto. Qed.

(** C3. Every emitted row has its latitude strictly between -90 and 90 and
    its longitude strictly between -180 and 180, both being the raw 32-bit
    integers of the record divided by 1e6 in double precision. A position
    with raw latitude 90 000 000 fails the test whatever its longitude, one
    with 89 999 999 passes it for every longitude in range; the file of
    one frame holding that position gives no row in the first case and one
    row in the second. *)
Theorem C3_coordinates_strictly_in_range :
  (forall f,
     Forall (fun row =>
               exists lat_raw lon_raw,
                 is_int32 lat_raw /\ is_int32 lon_raw /\
                 ac_lat row = degrees lat_raw /\ ac_lon row = degrees lon_raw /\
                 ((-90 <? ac_lat row) = true /\ (ac_lat row <? 90) = true /\
                  (-180 <? ac_lon row) = true /\ (ac_lon row <? 180) = true)%float)
            (parse_binary_file f)) /\
  (forall lon, in_range (degrees 90000000) lon = false) /\
  (forall lon, in_range (degrees 89999999) lon = ((-180 <? lon) && (lon <? 180))%float) /\
  parse_binary_file
    (file_of_words (header 0 1000000 ++ position_0abcde 90000000)) = [] /\
  length (parse_binary_file
    (file_of_words (header 0 1000000 ++ position_0abcde 89999999))) = 1%nat.
Proof.
  split; [|split; [|split; [|split]]].
  - apply parse_binary_file_rows.
    intros now w0 lat lon w3 fl sq _ Hlat Hlon _ Hr.
    exists lat, lon. repeat (split; [assumption || reflexivity|]).
    by apply in_range_true.
  - intros lon. unfold in_range.
    replace (degrees 90000000 <? 90)%float with false by (vm_compute; reflexivity).
    by rewrite andb_false_r.
  - intros lon. unfold in_range.
    replace (-90 <? degrees 89999999)%float with true by (vm_compute; reflexivity).
    replace (degrees 89999999 <? 90)%float with true by (vm_compute; reflexivity).
    reflexivity.
  - vm_compute. reflexivity.
  - vm_compute. reflexivity.
Qed.

(** ** Altitude *)

Lemma alt_raw_low16 w3 : alt_raw w3 = alt_raw (w3 mod 2 ^ 16).
Proof.
  unfold alt_raw. change 65535 with (Z.ones 16).
  rewrite !Z.land_ones by lia. by rewrite Z.mod_mod by lia.
Qed.

(** The program's sign extension ([& 65535], then [|= -65536] when
    [& 32768] is set) is the two's-complement reading of the low 16 bits. *)
Lemma alt_raw_signed16 w3 : alt_raw w3 = signed16 (w3 mod 2 ^ 16).
Proof.
  rewrite alt_raw_low16.
  assert (H : all_from (Z.to_nat 65536) 0
                (fun u => alt_raw u =? signed16 u) = true)
    by (vm_compute; reflexivity).
  apply Z.eqb_eq, (all_from_spec _ _ _ H).
  pose proof (Z.mod_pos_bound w3 (2 ^ 16)). lia.
Qed.

Lemma signed16_range u : 0 <= u < 2 ^ 16 -> - 2 ^ 15 <= signed16 u < 2 ^ 15.
Proof.
  unfold signed16. change (2 ^ 16) with 65536. change (2 ^ 15) with 32768.
  destruct (Z.ltb_spec u 32768); lia.
Qed.

(** ** Transmission type *)

Lemma type_num_bits w0 : type_num w0 = (as_uint32 w0 / 2 ^ 27) mod 2 ^ 5.
Proof.
  unfold type_num. change 31 with (Z.ones 5).
  by rewrite Z.land_ones, Z.shiftr_div_pow2 by lia.
Qed.

Lemma type_num_range w0 : 0 <= type_num w0 <= 31.
Proof.
  rewrite type_num_bits.
  pose proof (Z.mod_pos_bound (as_uint32 w0 / 2 ^ 27) (2 ^ 5)). lia.
Qed.

(** C6 as stated fails: a record whose type field holds 13 is emitted with
    type 13, outside [0, 12]. *)
Lemma C6_type_can_exceed_12 :
  ~ (forall f, Forall (fun row => 0 <= ac_type row <= 12) (parse_binary_file f)).
Proof.
  intros H.
  specialize (H (file_of_words
    (header 0 1000000 ++ position_at_47N_8E (0x0ABCDE + 13 * 2 ^ 27) 4))).
  vm_compute in H. inversion H as [|row rows Hrow _]. subst.
  destruct Hrow as [_ Hle]. by apply Hle.
Qed.

(** ** Ground speed *)

Lemma gs_raw_div w3 : gs_raw w3 = w3 / 2 ^ 16.
Proof. unfold gs_raw. by rewrite Z.shiftr_div_pow2 by lia. Qed.

Lemma gs_raw_range w3 : is_int32 w3 -> - 2 ^ 15 <= gs_raw w3 < 2 ^ 15.
Proof.
  unfold is_int32. rewrite gs_raw_div. intros H.
  change (2 ^ 31) with (2 ^ 15 * 2 ^ 16) in H.
  split.
  - apply Z.div_le_lower_bound; lia.
  - apply Z.div_lt_upper_bound; lia.
Qed.

Lemma gs_nonneg g :
  0 <= g < 2 ^ 15 -> (0 <=? float_of_Z g / 10)%float = true.
Proof.
  assert (H : all_from (Z.to_nat 32768) 0
                (fun g => (0 <=? float_of_Z g / 10)%float) = true)
    by (vm_compute; reflexivity).
  intros Hg. apply (all_from_spec _ _ _ H).
  change (2 ^ 15) with 32768 in Hg. lia.
Qed.

Lemma gs_negative g :
  - 2 ^ 15 <= g < -1 -> (float_of_Z g / 10 <? 0)%float = true.
Proof.
  assert (H : all_from (Z.to_nat 32767) (-32768)
                (fun g => (float_of_Z g / 10 <? 0)%float) = true)
    by (vm_compute; reflexivity).
  intros Hg. apply (all_from_spec _ _ _ H).
  change (2 ^ 15) with 32768 in Hg. lia.
Qed.

(** C5 as stated fails: a fourth word whose high half is -2 gives the
    ground speed -0.2, which is present and negative. *)
Lemma C5_ground_speed_can_be_negative :
  ~ (forall f,
       Forall (fun row =>
                 match ac_gs row with
                 | None => True
                 | Some v => (0 <=? v)%float = true
                 end)
              (parse_binary_file f)).
Proof.
  intros H.
  specialize (H (file_of_words
    (header 0 1000000 ++ position_at_47N_8E 0x0ABCDE (-2 * 65536 + 4)))).
  vm_compute in H. inversion H as [|row rows Hrow _]. discriminate.
Qed.

(** ** Squawk *)

Lemma squawk_of_low16 lat : squawk_of lat = format_d 4 (lat mod 2 ^ 16).
Proof.
  unfold squawk_of. change 65535 with (Z.ones 16). by rewrite Z.land_ones by lia.
Qed.

Lemma format_d_4_length u :
  0 <= u < 2 ^ 16 ->
  String.length (format_d 4 u) = if u <? 10000 then 4%nat else 5%nat.
Proof.
  assert (H : all_from (Z.to_nat 65536) 0
                (fun u => Nat.eqb (String.length (format_d 4 u))
                                  (if u <? 10000 then 4 else 5)) = true)
    by (vm_compute; reflexivity).
  intros Hu. apply Nat.eqb_eq, (all_from_spec _ _ _ H).
  change (2 ^ 16) with 65536 in Hu. lia.
Qed.

Lemma format_d_4_value u :
  0 <= u < 2 ^ 16 -> decimal_value (format_d 4 u) = Some u.
Proof.
  assert (H : all_from (Z.to_nat 65536) 0
                (fun u => match decimal_value (format_d 4 u) with
                          | Some v => v =? u
                          | None => false
                          end) = true)
    by (vm_compute; reflexivity).
  intros Hu.
  assert (Hy : 0 <= u < 0 + Z.of_nat (Z.to_nat 65536))
    by (change (2 ^ 16) with 65536 in Hu; lia).
  pose proof (all_from_spec _ _ _ H u Hy) as Hv. cbv beta in Hv.
  destruct (decimal_value (format_d 4 u)); [|discriminate].
  apply Z.eqb_eq in Hv. by subst.
Qed.

(** C7, as the program has it. An identity record (second word above 2^30)
    whose call sign can be read stores under its hex the decimal digits of
    the low 16 bits of that word, padded with zeros on the left to four
    characters at least: four characters when the value is below 10000 and
    five when it is not, for [%04d] never cuts a number. *)
Theorem C7_squawk_rendering points i w0 lat acinfo fl sq acinfo' :
  1073741824 < lat ->
  identity_part points i w0 lat acinfo = Return (fl, sq, acinfo') ->
  acinfo' !! hex_of w0 = Some (fl, sq) /\
  sq = Some (squawk_of lat) /\
  decimal_value (squawk_of lat) = Some (lat mod 2 ^ 16) /\
  String.length (squawk_of lat) =
    (if lat mod 2 ^ 16 <? 10000 then 4%nat else 5%nat).
Proof.
  intros Hlat H. unfold identity_part in H.
  replace (1073741824 <? lat) with true in H by (symmetry; apply Z.ltb_lt; lia).
  apply bind_Return_inv in H as (flight & _ & H).
  injection H as <- <- <-.
  pose proof (Z.mod_pos_bound lat (2 ^ 16)) as Hm.
  split; [by rewrite lookup_insert_eq|]. split; [reflexivity|].
  rewrite squawk_of_low16.
  split; [apply format_d_4_value | apply format_d_4_length]; lia.
Qed.

(** C7 as stated fails: an identity record whose low 16 bits hold 10000
    gets the five-character squawk "10000". *)
Lemma C7_squawk_can_have_five_characters :
  ~ (forall lat, is_int32 lat -> 1073741824 < lat ->
                 String.length (squawk_of lat) = 4%nat).
Proof.
  intros H. specialize (H (1073741824 + 10000)).
  assert (Hlen : String.length (squawk_of (1073741824 + 10000)) = 5%nat)
    by (vm_compute; reflexivity).
  rewrite H in Hlen; [discriminate | unfold is_int32; lia | lia].
Qed.

(** ** The down-sampler *)

Lemma keep_true seen hex now :
  keep seen hex now = true <->
  seen !! hex = None \/
  exists t, seen !! hex = Some t /\ (60 <=? now - t)%float = true.
Proof.
  unfold keep. destruct (seen !! hex) as [t|].
  - split; [intros H; right; eauto|].
    intros [H | (t' & [= <-] & H)]; [discriminate | exact H].
  - split; [by left | reflexivity].
Qed.

Lemma spaced60_snoc ts now :
  spaced60 ts ->
  match last ts with
  | Some t => (60 <=? now - t)%float = true
  | None => True
  end ->
  spaced60 (ts ++ [now]).
Proof.
  induction ts as [|t1 [|t2 ts] IH]; intros Hs Hl.
  - exact I.
  - simpl in *. auto.
  - destruct Hs as [H12 Hs]. split; [exact H12|].
    apply IH; [exact Hs | exact Hl].
Qed.

Lemma track_snoc h data row :
  track h (data ++ [row]) =
  track h data ++ (if decide (ac_hex row = h) then [ac_t row] else []).
Proof.
  unfold track. rewrite filter_app, fmap_app. f_equal.
  rewrite filter_cons, filter_nil. by destruct (decide (ac_hex row = h)).
Qed.

Lemma stamped_emit seen data now w0 lat lon w3 fl sq :
  stamped seen data ->
  keep seen (hex_of w0) now = true ->
  stamped (<[hex_of w0 := now]> seen) (data ++ [mk_row now w0 lat lon w3 fl sq]).
Proof.
  intros HI Hk h. rewrite track_snoc. cbn [ac_hex ac_t mk_row].
  destruct (HI h) as [Hl Hs].
  destruct (decide (hex_of w0 = h)) as [<-|Hne].
  - rewrite lookup_insert_eq, last_snoc. split; [reflexivity|].
    apply spaced60_snoc; [exact Hs|].
    rewrite <- Hl. unfold keep in Hk. by destruct (seen !! hex_of w0).
  - rewrite lookup_insert_ne by assumption. by rewrite app_nil_r.
Qed.

(** [last_seen] and [data] start empty before the first frame and are
    never reset, so the spacing holds across the whole file. *)
Lemma parse_binary_file_spaced f h : spaced60 (track h (parse_binary_file f)).
Proof.
  destruct (parse_binary_file_inv stamped) with (f := f) as [seen H].
  - intros h'. split; [by rewrite lookup_empty | exact I].
  - intros seen data now w0 lat lon w3 fl sq HI _ _ _ _ _ Hk.
    by apply stamped_emit.
  - apply H.
Qed.

(** C2. A record that passes the coordinate test is appended exactly when
    its hex has no entry in [last_seen] or the frame time minus that entry
    is at least 60 (in double precision), and [last_seen] is given the
    frame time for that hex exactly then. Hence in the result of any file,
    the times of the rows of any one hex are each at least 60 after the
    one before; three positions of one aircraft at 1000, 1030 and 1061
    give the rows at 1000 and 1061. *)
Theorem C2_one_position_per_minute :
  (forall seen hex now,
     keep seen hex now = true <->
     seen !! hex = None \/
     exists t, seen !! hex = Some t /\ (60 <=? now - t)%float = true) /\
  (forall points now i acinfo seen data acinfo' seen' data' w0 lat lon,
     record_body points now i (acinfo, seen, data) = Return (acinfo', seen', data') ->
     points !! i = Some w0 -> points !! (i + 1)%nat = Some lat ->
     points !! (i + 2)%nat = Some lon ->
     in_range (degrees lat) (degrees lon) = true ->
     if keep seen (hex_of w0) now
     then (exists row, data' = data ++ [row] /\ ac_t row = now /\
                       ac_hex row = hex_of w0) /\
          seen' = <[hex_of w0 := now]> seen
     else data' = data /\ seen' = seen) /\
  (forall f h, spaced60 (track h (parse_binary_file f))) /\
  ac_t <$> parse_binary_file three_positions = [1000%float; 1061%float].
Proof.
  split; [exact keep_true|]. split; [|split].
  - intros points now i acinfo seen data acinfo' seen' data' w0 lat lon H L0 L1 L2 Hr.
    apply record_body_Return in H
      as (w0' & lat' & lon' & fl & sq & a' & L0' & L1' & L2' & _ & H).
    rewrite L0 in L0'. rewrite L1 in L1'. rewrite L2 in L2'.
    injection L0' as <-. injection L1' as <-. injection L2' as <-.
    destruct H as [(w3 & _ & _ & Hk & Heq) | [[Hnr | Hk] Heq]].
    + rewrite Hk. injection Heq as -> -> ->. split; [|reflexivity].
      eexists. split; [reflexivity|]. split; reflexivity.
    + congruence.
    + rewrite Hk. injection Heq as -> -> ->. by split.
  - exact parse_binary_file_spaced.
  - vm_compute. reflexivity.
Qed.

(** ** Failures *)

Lemma scan_slices_none (points : list Z) (l : list nat) :
  (forall i, i ∈ l -> points !! i <> Some sentinel) ->
  foldl (fun '(found, slices) i =>
           match points !! i with
           | Some w => if w =? sentinel then (1, slices ++ [i]) else (found, slices)
           | None => (found, slices)
           end) (0, []) l = (0, []).
Proof.
  induction l as [|i l IH]; intros H; [reflexivity|].
  cbn [foldl]. destruct (points !! i) as [w|] eqn:Hi.
  - destruct (Z.eqb_spec w sentinel) as [->|Hne].
    + exfalso. apply (H i); [left | exact Hi].
    + apply IH. intros j Hj. apply H. by right.
  - apply IH. intros j Hj. apply H. by right.
Qed.

Lemma parse_points_no_marker (points : list Z) :
  (forall k, points !! (4 * k)%nat <> Some sentinel) ->
  parse_points points = Return [].
Proof.
  intros H. unfold parse_points.
  destruct (length points =? 0)%nat; [reflexivity|].
  unfold scan_slices. rewrite scan_slices_none; [reflexivity|].
  intros i Hi. unfold range4 in Hi.
  apply list_elem_of_fmap in Hi as (k & -> & _). apply H.
Qed.

Lemma parse_points_short (points : list Z) :
  (length points < 4)%nat ->
  parse_points points = Return [] \/ parse_points points = Raise IndexError.
Proof.
  intros Hlen.
  destruct points as [|a [|b [|c [|d rest]]]]; [by left | | | | simpl in Hlen; lia];
    unfold parse_points, scan_slices; cbn;
    (destruct (a =? sentinel); [|by left]); cbn; auto.
Qed.

Lemma add_file_shift total f : add_file total f = (total + add_file 0 f)%nat.
Proof. unfold add_file. by destruct (parse_binary_file f). Qed.

Lemma foldl_add_file files : forall total,
  foldl add_file total files = (total + foldl add_file 0%nat files)%nat.
Proof.
  induction files as [|f files IH]; intros total; cbn [foldl]; [lia|].
  rewrite IH, (IH (add_file 0 f)), (add_file_shift total f). lia.
Qed.

Lemma total_records_app files1 files2 :
  total_records (files1 ++ files2) =
  (total_records files1 + total_records files2)%nat.
Proof. unfold total_records. by rewrite foldl_app, foldl_add_file. Qed.

(** C8. Parsing one file always ends with a list of rows, and with no rows
    in every failure: a missing or unreadable file, an empty one, one with
    fewer than 16 bytes, one with no marker at a record boundary, and any
    exception raised inside the [try] block, such as the [IndexError] of a
    record cut off at the end of the file, which also drops the rows read
    before it. Such a file adds nothing to the batch's count and the files
    after it are counted as usual. *)
Theorem C8_failed_file_gives_no_rows :
  parse_binary_file Missing = [] /\
  parse_binary_file Unreadable = [] /\
  parse_binary_file (Contents []) = [] /\
  (forall bytes, (length bytes < 16)%nat -> parse_binary_file (Contents bytes) = []) /\
  (forall bytes, (forall k, fromfile bytes !! (4 * k)%nat <> Some sentinel) ->
                 parse_binary_file (Contents bytes) = []) /\
  (forall f, parse_try f <> OutOfFuel) /\
  (forall f e, parse_try f = Raise e -> parse_binary_file f = []) /\
  (parse_try truncated_file = Raise IndexError /\
   parse_binary_file truncated_file = [] /\
   length (parse_binary_file whole_file) = 1%nat) /\
  (forall f e before after,
     parse_try f = Raise e ->
     total_records (before ++ f :: after) =
     (total_records before + total_records after)%nat).
Proof.
  assert (Hraise : forall f e, parse_try f = Raise e -> parse_binary_file f = []).
  { intros f e H. unfold parse_binary_file. rewrite H. by destruct f. }
  split; [reflexivity|]. split; [reflexivity|]. split; [reflexivity|].
  repeat match goal with |- _ /\ _ => split end.
  - intros bytes Hlen. cbn [parse_binary_file parse_try].
    destruct (parse_points_short (fromfile bytes)) as [-> | ->]; [|reflexivity..].
    rewrite fromfile_length.
    apply Nat.Div0.div_lt_upper_bound. lia.
  - intros bytes H. cbn [parse_binary_file parse_try].
    by rewrite parse_points_no_marker.
  - exact parse_try_fuel.
  - exact Hraise.
  - vm_compute. reflexivity.
  - vm_compute. reflexivity.
  - vm_compute. reflexivity.
  - intros f e before after H.
    rewrite total_records_app. f_equal.
    change (f :: after) with ([f] ++ after). rewrite total_records_app.
    unfold total_records at 1, add_file. cbn [foldl]. by rewrite (Hraise f e H).
Qed.

(** ** Binary64 facts about the coordinate test *)

Lemma digits2_pos_bounds p :
  2 ^ (Zpos (digits2_pos p) - 1) <= Zpos p < 2 ^ Zpos (digits2_pos p).
Proof.
  induction p as [p IH|p IH|]; cbn [digits2_pos].
  - rewrite Pos2Z.inj_succ, Z.pow_succ_r by lia.
    replace (Z.succ (Zpos (digits2_pos p)) - 1) with (Z.succ (Zpos (digits2_pos p) - 1)) by lia.
    rewrite Z.pow_succ_r by lia. lia.
  - rewrite Pos2Z.inj_succ, Z.pow_succ_r by lia.
    replace (Z.succ (Zpos (digits2_pos p)) - 1) with (Z.succ (Zpos (digits2_pos p) - 1)) by lia.
    rewrite Z.pow_succ_r by lia. lia.
  - simpl. lia.
Qed.

Lemma digits2_pos_unique p d :
  2 ^ (d - 1) <= Zpos p < 2 ^ d -> 0 < d -> Zpos (digits2_pos p) = d.
Proof.
  intros [Hlo Hhi] Hd. pose proof (digits2_pos_bounds p) as [Blo Bhi].
  destruct (Z.lt_trichotomy (Zpos (digits2_pos p)) d) as [Hlt | [Heq | Hgt]]; [|exact Heq|].
  - assert (2 ^ Zpos (digits2_pos p) <= 2 ^ (d - 1)) by (apply Z.pow_le_mono_r; lia). lia.
  - assert (2 ^ d <= 2 ^ (Zpos (digits2_pos p) - 1)) by (apply Z.pow_le_mono_r; lia). lia.
Qed.

Lemma shr_m_of_loc m l : shr_m (shr_record_of_loc m l) = m.
Proof. by destruct l as [|[]]. Qed.

Lemma shr_fexp_norm m e l :
  2 ^ 52 <= m < 2 ^ 54 -> -1074 <= e ->
  exists mrs e1, shr_fexp prec emax m e l = (mrs, e1) /\
                 2 ^ 52 <= shr_m mrs < 2 ^ 53 /\ e <= e1 <= e + 1.
Proof.
  intros Hm He. destruct m as [|p|p]; try (exfalso; lia).
  unfold shr_fexp, Zdigits2.
  destruct (Z.lt_ge_cases (Zpos p) (2 ^ 53)) as [Hlt|Hge].
  - rewrite (digits2_pos_unique p 53) by (change (53 - 1) with 52; lia).
    replace (fexp prec emax (53 + e) - e) with 0
      by (unfold fexp, SpecFloat.emin, prec, emax; lia).
    eexists _, _. split; [reflexivity|]. rewrite shr_m_of_loc. lia.
  - rewrite (digits2_pos_unique p 54) by (change (54 - 1) with 53; lia).
    replace (fexp prec emax (54 + e) - e) with 1
      by (unfold fexp, SpecFloat.emin, prec, emax; lia).
    eexists _, _. split; [reflexivity|]. split; [|lia].
    cbn [iter_pos].
    change (2 ^ 53) with 9007199254740992 in *. change (2 ^ 54) with 18014398509481984 in *.
    change (2 ^ 52) with 4503599627370496 in *.
    destruct l as [|[]], p as [p|p|]; cbn; lia.
Qed.

Lemma round_nearest_even_bounds m l :
  m <= round_nearest_even m l <= m + 1.
Proof.
  unfold round_nearest_even. destruct l as [|[]]; try lia.
  destruct (Z.even m); lia.
Qed.

Lemma binary_round_aux_normal sx m e l :
  2 ^ 52 <= m < 2 ^ 54 -> -1074 <= e <= 900 ->
  exists m' e', binary_round_aux prec emax sx m e l = S754_finite sx m' e' /\ e <= e'.
Proof.
  intros Hm He. unfold binary_round_aux.
  destruct (shr_fexp_norm m e l Hm) as (mrs & e1 & -> & Hm1 & He1); [lia|].
  pose proof (round_nearest_even_bounds (shr_m mrs) (loc_of_shr_record mrs)) as Hr.
  destruct (shr_fexp_norm (round_nearest_even (shr_m mrs) (loc_of_shr_record mrs))
              e1 loc_Exact) as (mrs2 & e2 & -> & Hm2 & He2).
  { change (2 ^ 53) with 9007199254740992 in *. change (2 ^ 54) with 18014398509481984 in *.
    change (2 ^ 52) with 4503599627370496 in *. lia. }
  { lia. }
  destruct (shr_m mrs2) as [|m2|m2] eqn:Hm2'; try (exfalso; lia).
  replace (e2 <=? emax - prec) with true
    by (symmetry; apply Z.leb_le; unfold emax, prec; lia).
  exists m2, e2. split; [reflexivity | lia].
Qed.

Lemma normalize_int31 p :
  2 ^ 30 <= Zpos p < 2 ^ 31 ->
  exists m, binary_normalize prec emax (Zpos p) 0 false = S754_finite false m (-22) /\
            Zpos m = Zpos p * 2 ^ 22.
Proof.
  intros Hp. unfold binary_normalize, binary_round.
  rewrite (digits2_pos_unique p 31) by (change (31 - 1) with 30; lia).
  change (shl_align p 0 (fexp prec emax (31 + 0))) with (Pos.iter xO p 22, -22).
  assert (Hm : Zpos (Pos.iter xO p 22) = Zpos p * 2 ^ 22).
  { change (Pos.iter xO p 22) with (Pos.shiftl p 22).
    change (Zpos (Pos.shiftl p 22)) with (Z.shiftl (Zpos p) 22).
    by rewrite Z.shiftl_mul_pow2 by lia. }
  exists (Pos.iter xO p 22). split; [|exact Hm].
  unfold binary_round_aux.
  assert (Hd : Zdigits2 (Zpos (Pos.iter xO p 22)) = 53).
  { unfold Zdigits2. apply digits2_pos_unique; [|lia]. rewrite Hm.
    change (2 ^ (53 - 1)) with (2 ^ 30 * 2 ^ 22). change (2 ^ 53) with (2 ^ 31 * 2 ^ 22). lia. }
  unfold shr_fexp at 1. rewrite Hd.
  change (fexp prec emax (53 + -22) - -22) with 0. cbn [shr shr_record_of_loc shr_m loc_of_shr_record round_nearest_even].
  unfold shr_fexp. rewrite Hd.
  change (fexp prec emax (53 + -22) - -22) with 0. cbn [shr shr_record_of_loc shr_m].
  reflexivity.
Qed.

Lemma SFdiv_by_1e6 m :
  2 ^ 52 <= Zpos m < 2 ^ 53 ->
  exists m' e',
    SFdiv prec emax (S754_finite false m (-22)) (Prim2SF 1e6) =
    S754_finite false m' e' /\ -42 <= e'.
Proof.
  intros Hm.
  change (Prim2SF 1e6) with (S754_finite false 8589934592000000 (-33)).
  unfold SFdiv, SFdiv_core_binary.
  assert (Hd : Zdigits2 (Zpos m) = 53)
    by (unfold Zdigits2; apply digits2_pos_unique; [exact Hm | lia]).
  rewrite Hd.
  change (Zdigits2 8589934592000000) with 53.
  change (Z.min (fexp prec emax (53 + -22 - (53 + -33))) (-22 - -33)) with (-42).
  change (-22 - -33 - -42) with 53.
  cbv zeta. cbv iota.
  pose proof (Z_div_mod (Z.shiftl (Zpos m) 53) 8589934592000000 eq_refl) as Hdiv.
  destruct (Z.div_eucl (Z.shiftl (Zpos m) 53) 8589934592000000) as [q r].
  rewrite Z.shiftl_mul_pow2 in Hdiv by lia.
  change (2 ^ 53) with 9007199254740992 in *.
  change (2 ^ 52) with 4503599627370496 in *.
  apply binary_round_aux_normal; [|lia].
  change (2 ^ 54) with 18014398509481984. change (2 ^ 52) with 4503599627370496. lia.
Qed.

(** The second word of an identity record is above 2^30, so the degrees
    computed from it are above 1073 and the coordinate test fails: in
    binary64 the quotient has an exponent above that of 90. *)
Lemma identity_latitude_not_below_90 lat :
  2 ^ 30 < lat < 2 ^ 31 -> (degrees lat <? 90)%float = false.
Proof.
  intros Hlat. destruct lat as [|p|p]; try lia.
  unfold degrees, float_of_Z.
  rewrite FloatAxioms.ltb_spec, FloatAxioms.div_spec, FloatAxioms.of_uint63_spec, Uint63.of_Z_spec.
  rewrite Z.mod_small
    by (change wB with 9223372036854775808;
        change (2 ^ 31) with 2147483648 in Hlat; lia).
  destruct (normalize_int31 p) as (m & -> & Hm); [lia|].
  destruct (SFdiv_by_1e6 m) as (m' & e' & He & Hle).
  { rewrite Hm. change (2 ^ 52) with (2 ^ 30 * 2 ^ 22).
    change (2 ^ 53) with (2 ^ 31 * 2 ^ 22). lia. }
  unfold SF64div. rewrite He.
  change (Prim2SF 90) with (S754_finite false 6333186975989760 (-46)).
  unfold SFltb, SFcompare.
  replace (e' ?= -46) with Gt by (symmetry; apply Z.compare_gt_iff; lia).
  reflexivity.
Qed.

Lemma identity_not_in_range lat lon :
  2 ^ 30 < lat < 2 ^ 31 -> in_range (degrees lat) lon = false.
Proof.
  intros H. unfold in_range.
  rewrite (identity_latitude_not_below_90 lat H).
  by rewrite andb_false_r.
Qed.

(** ** What changes the down-sampler *)

(** C10. A run of the loop body either appends one row and stamps its time
    under its hex in [last_seen], or leaves [last_seen] and [data] both as
    they were; the latter for every identity record (its second word is
    above 2^30, which fails the coordinate test), every record failing the
    coordinate test and every record the 60-second test holds back. So a
    position out of range at 1030 s does not keep the position at 1061 s
    from following the one at 1000 s. *)
Theorem C10_last_seen_changes_only_on_emission :
  (forall points now i acinfo seen data acinfo' seen' data',
     Forall is_int32 points ->
     record_body points now i (acinfo, seen, data) = Return (acinfo', seen', data') ->
     ((seen' = seen /\ data' = data) \/
      (exists row, data' = data ++ [row] /\
                   seen' = <[ac_hex row := ac_t row]> seen)) /\
     (forall w0 lat lon,
        points !! i = Some w0 -> points !! (i + 1)%nat = Some lat ->
        points !! (i + 2)%nat = Some lon ->
        1073741824 < lat \/ in_range (degrees lat) (degrees lon) = false \/
        keep seen (hex_of w0) now = false ->
        seen' = seen /\ data' = data)) /\
  ac_t <$> parse_binary_file out_of_range_between = [1000%float; 1061%float].
Proof.
  split; [|vm_compute; reflexivity].
  intros points now i acinfo seen data acinfo' seen' data' Hall H.
  apply record_body_Return in H
    as (w0 & lat & lon & fl & sq & a' & L0 & L1 & L2 & _ & H).
  split.
  - destruct H as [(w3 & _ & _ & _ & Heq) | [_ Heq]]; injection Heq as -> -> ->.
    + right. eexists. split; reflexivity.
    + by left.
  - intros w0' lat' lon' L0' L1' L2' Hcase.
    rewrite L0 in L0'. rewrite L1 in L1'. rewrite L2 in L2'.
    injection L0' as <-. injection L1' as <-. injection L2' as <-.
    destruct H as [(w3 & Hr & _ & Hk & _) | [_ Heq]];
      [|by injection Heq as -> -> ->].
    exfalso. destruct Hcase as [Hid | [Hnr | Hnk]]; [|congruence..].
    rewrite Forall_lookup in Hall. pose proof (Hall _ _ L1) as [_ Hhi].
    rewrite identity_not_in_range in Hr; [discriminate|].
    change (2 ^ 30) with 1073741824. lia.
Qed.

(** ** The state table *)

Lemma identity_part_table (points : list Z) i w0 lat acinfo fl sq acinfo' :
  points !! i = Some w0 -> points !! (i + 1)%nat = Some lat ->
  identity_part points i w0 lat acinfo = Return (fl, sq, acinfo') ->
  acinfo' = identity_update points i acinfo /\
  fl = (acinfo_get acinfo' (hex_of w0)).1 /\
  sq = (acinfo_get acinfo' (hex_of w0)).2.
Proof.
  intros L0 L1 H. unfold identity_update. rewrite L0, L1.
  unfold identity_part in H. destruct (1073741824 <? lat).
  - apply bind_Return_inv in H as (flight & -> & H).
    injection H as <- <- <-.
    unfold acinfo_get. by rewrite lookup_insert_eq.
  - by injection H as <- <- <-.
Qed.

Lemma scan_slices_markers (points : list Z) :
  Forall (fun s => points !! s = Some sentinel) (scan_slices points).2.
Proof.
  unfold scan_slices.
  assert (H : forall (l : list nat) found slices,
            Forall (fun s => points !! s = Some sentinel) slices ->
            Forall (fun s => points !! s = Some sentinel)
              (foldl (fun '(found, slices) i =>
                        match points !! i with
                        | Some w =>
                            if w =? sentinel then (1, slices ++ [i])
                            else (found, slices)
                        | None => (found, slices)
                        end) (found, slices) l).2).
  { induction l as [|i l IH]; intros found slices Hs; [exact Hs|].
    cbn [foldl]. destruct (points !! i) as [w|] eqn:Hi; [|by apply IH].
    destruct (Z.eqb_spec w sentinel) as [->|Hne]; [|by apply IH].
    apply IH, Forall_app. split; [exact Hs | by repeat constructor]. }
  apply H. constructor.
Qed.

Section FrameTable.

Variable points : list Z.
Variables (s : nat) (u1 u2 : Z).
Hypothesis marker_at_s : points !! s = Some sentinel.
Hypothesis clock_hi : view_uint32 points !! (s + 1)%nat = Some u1.
Hypothesis clock_lo : view_uint32 points !! (s + 2)%nat = Some u2.

(** The [while] loop of the frame at [s], entered at its record number [k]
    with the table the records before it have built, appends rows of this
    frame only. *)
Lemma while_records_table fuel : forall k seen data st',
  (forall k', (k' < k)%nat -> points !! (s + 4 + 4 * k')%nat <> Some sentinel) ->
  while_records fuel points (frame_time u1 u2) (s + 4 + 4 * k)%nat
    (frame_table points s k, seen, data) = Return st' ->
  exists new, st'.2 = data ++ new /\
              Forall (fun row => exists k', frame_row points s k' row) new.
Proof.
  induction fuel as [|fuel IH]; intros k seen data st' Hpre H; [discriminate|].
  cbn [while_records] in H.
  destruct (points !! (s + 4 + 4 * k)%nat) as [w|] eqn:Hw.
  2:{ injection H as <-. exists []. by rewrite app_nil_r. }
  destruct (Z.eqb_spec w sentinel) as [->|Hne].
  { injection H as <-. exists []. by rewrite app_nil_r. }
  apply bind_Return_inv in H as ([[acinfo1 seen1] data1] & Hb & H).
  assert (Hpre' : forall k', (k' <= k)%nat ->
                    points !! (s + 4 + 4 * k')%nat <> Some sentinel).
  { intros k' Hk'. destruct (decide (k' = k)) as [->|Hk]; [congruence|].
    apply Hpre. lia. }
  apply record_body_Return in Hb
    as (w0 & lat & lon & fl & sq & acinfo' & L0 & L1 & L2 & Hid & Hb).
  destruct (identity_part_table _ _ _ _ _ _ _ _ L0 L1 Hid) as (Ht & Hfl & Hsq).
  assert (Htbl : acinfo' = frame_table points s (S k)) by exact Ht.
  replace (s + 4 + 4 * k + 4)%nat with (s + 4 + 4 * S k)%nat in H by lia.
  destruct Hb as [(w3 & _ & L3 & _ & Heq) | [_ Heq]];
    injection Heq as -> -> ->; rewrite Htbl in H.
  - apply IH in H as (new & Hnew & Hall); [|intros k' Hk'; apply Hpre'; lia].
    exists (mk_row (frame_time u1 u2) w0 lat lon w3 fl sq :: new).
    split; [by rewrite Hnew, <- app_assoc|].
    constructor; [|exact Hall].
    exists k, u1, u2, w0, lat, lon, w3.
    repeat (split; [assumption|]). cbv zeta. rewrite <- Htbl. by subst fl sq.
  - apply IH in H; [exact H | intros k' Hk'; apply Hpre'; lia].
Qed.

End FrameTable.

Lemma for_slices_table (points : list Z) slices : forall seen data r,
  Forall (fun s => points !! s = Some sentinel) slices ->
  for_slices points slices seen data = Return r ->
  exists new, r.2 = data ++ new /\
              Forall (fun row => exists s k, frame_row points s k row) new.
Proof.
  induction slices as [|s slices IH]; intros seen data r Hm H.
  - injection H as <-. exists []. by rewrite app_nil_r.
  - rewrite for_slices_cons in H.
    apply bind_Return_inv in H as (u2 & Hu2 & H).
    apply bind_Return_inv in H as (u1 & Hu1 & H).
    apply bind_Return_inv in H as (st & Hw & H).
    apply getitem_Return in Hu1, Hu2.
    apply Forall_cons in Hm as [Hs Hm].
    replace (s + 4)%nat with (s + 4 + 4 * 0)%nat in Hw by lia.
    apply (while_records_table points s u1 u2 Hs Hu1 Hu2) in Hw
      as (new1 & Hnew1 & Hall1); [|intros k' Hk'; lia].
    apply IH in H as (new2 & Hnew2 & Hall2); [|exact Hm].
    exists (new1 ++ new2). split; [by rewrite Hnew2, Hnew1, <- app_assoc|].
    apply Forall_app. split; [|exact Hall2].
    eapply Forall_impl; [exact Hall1|]. intros row [k Hk]. by exists s, k.
Qed.

(** A frame's table holds nothing for a hex none of whose identity records
    the frame has read. *)
Lemma frame_table_none (points : list Z) s h n :
  (forall k w0 lat, (k < n)%nat ->
     points !! (s + 4 + 4 * k)%nat = Some w0 ->
     points !! (s + 4 + 4 * k + 1)%nat = Some lat ->
     1073741824 < lat -> hex_of w0 <> h) ->
  acinfo_get (frame_table points s n) h = (None, None).
Proof.
  induction n as [|n IH]; intros Hno.
  - unfold acinfo_get. cbn [frame_table]. by rewrite lookup_empty.
  - cbn [frame_table]. unfold identity_update.
    assert (IH' : acinfo_get (frame_table points s n) h = (None, None))
      by (apply IH; intros k w0 lat Hk; apply Hno; lia).
    destruct (points !! (s + 4 + 4 * n)%nat) as [w0|] eqn:L0; [|exact IH'].
    destruct (points !! (s + 4 + 4 * n + 1)%nat) as [lat|] eqn:L1; [|exact IH'].
    destruct (Z.ltb_spec 1073741824 lat) as [Hlat|_]; [|exact IH'].
    destruct (read_flight points (s + 4 + 4 * n)) as [fl| |]; try exact IH'.
    unfold acinfo_get. rewrite lookup_insert_ne; [exact IH'|].
    apply (Hno n w0 lat); [lia | exact L0 | exact L1 | exact Hlat].
Qed.

(** A frame's table holds, for a hex, the pair of the latest identity
    record of that hex the frame has read. *)
Lemma frame_table_latest (points : list Z) s h k0 w0 lat fl n :
  (k0 < n)%nat ->
  points !! (s + 4 + 4 * k0)%nat = Some w0 ->
  points !! (s + 4 + 4 * k0 + 1)%nat = Some lat ->
  1073741824 < lat -> hex_of w0 = h ->
  read_flight points (s + 4 + 4 * k0) = Return fl ->
  (forall k w0' lat', (k0 < k < n)%nat ->
     points !! (s + 4 + 4 * k)%nat = Some w0' ->
     points !! (s + 4 + 4 * k + 1)%nat = Some lat' ->
     1073741824 < lat' -> hex_of w0' <> h) ->
  acinfo_get (frame_table points s n) h = (fl, Some (squawk_of lat)).
Proof.
  intros Hk0 L0 L1 Hlat Hh Hfl.
  induction n as [|n IH]; intros Hno; [lia|].
  cbn [frame_table]. unfold identity_update.
  destruct (decide (k0 = n)) as [<-|Hne].
  - rewrite L0, L1.
    replace (1073741824 <? lat) with true by (symmetry; by apply Z.ltb_lt).
    rewrite Hfl. unfold acinfo_get. by rewrite Hh, lookup_insert_eq.
  - assert (IH' : acinfo_get (frame_table points s n) h = (fl, Some (squawk_of lat)))
      by (apply IH; [lia | intros k w0' lat' Hk; apply Hno; lia]).
    destruct (points !! (s + 4 + 4 * n)%nat) as [w0'|] eqn:L0'; [|exact IH'].
    destruct (points !! (s + 4 + 4 * n + 1)%nat) as [lat'|] eqn:L1'; [|exact IH'].
    destruct (Z.ltb_spec 1073741824 lat') as [Hlat'|_]; [|exact IH'].
    destruct (read_flight points (s + 4 + 4 * n)) as [fl'| |]; try exact IH'.
    unfold acinfo_get. rewrite lookup_insert_ne; [exact IH'|].
    apply (Hno n w0' lat'); [lia | exact L0' | exact L1' | exact Hlat'].
Qed.

(** Every row of the result is the row of a record of a frame of the file. *)
Lemma parse_binary_file_frame_rows bytes :
  Forall (fun row => exists s k, frame_row (fromfile bytes) s k row)
         (parse_binary_file (Contents bytes)).
Proof.
  cbn [parse_binary_file parse_try]. unfold parse_points.
  destruct (length (fromfile bytes) =? 0)%nat; [constructor|].
  pose proof (scan_slices_markers (fromfile bytes)) as Hm.
  destruct (scan_slices (fromfile bytes)) as [found slices].
  destruct (found =? 0); [constructor|].
  destruct (for_slices (fromfile bytes) slices ∅ []) as [r| |] eqn:Hf;
    cbn; try constructor.
  apply for_slices_table in Hf as (new & -> & Hall); [exact Hall | exact Hm].
Qed.

(** C1, as the program has it. [last_seen] and [data] are created once per
    file and so hold across its frames (the rows of one hex stay 60 s
    apart over the whole file, and a position 30 s after one of an earlier
    frame is held back), but [acinfo] is created anew for every frame:
    every row of the result belongs to a record [k] of a frame [s] and
    carries the call sign and squawk of the latest identity record for its
    hex among the records of that frame read so far, and neither when that
    frame has none. An identity record followed by a position in the same
    frame gives the row its call sign and squawk; in the next frame it
    gives the row nothing. *)
Theorem C1_state_table_is_per_frame :
  (forall bytes,
     Forall (fun row => exists s k, frame_row (fromfile bytes) s k row)
            (parse_binary_file (Contents bytes))) /\
  (forall (points : list Z) s h n,
     (forall k w0 lat, (k < n)%nat ->
        points !! (s + 4 + 4 * k)%nat = Some w0 ->
        points !! (s + 4 + 4 * k + 1)%nat = Some lat ->
        1073741824 < lat -> hex_of w0 <> h) ->
     acinfo_get (frame_table points s n) h = (None, None)) /\
  (forall (points : list Z) s h k0 w0 lat fl n,
     (k0 < n)%nat ->
     points !! (s + 4 + 4 * k0)%nat = Some w0 ->
     points !! (s + 4 + 4 * k0 + 1)%nat = Some lat ->
     1073741824 < lat -> hex_of w0 = h ->
     read_flight points (s + 4 + 4 * k0) = Return fl ->
     (forall k w0' lat', (k0 < k < n)%nat ->
        points !! (s + 4 + 4 * k)%nat = Some w0' ->
        points !! (s + 4 + 4 * k + 1)%nat = Some lat' ->
        1073741824 < lat' -> hex_of w0' <> h) ->
     acinfo_get (frame_table points s n) h = (fl, Some (squawk_of lat))) /\
  (forall f h, spaced60 (track h (parse_binary_file f))) /\
  (fun row => (ac_t row, ac_flight row, ac_squawk row)) <$>
    parse_binary_file (file_of_words identity_then_same_frame) =
    [(1000%float, Some "BAW123  "%string, Some "1800"%string)] /\
  (fun row => (ac_t row, ac_flight row, ac_squawk row)) <$>
    parse_binary_file (file_of_words identity_then_next_frame) =
    [(1001%float, None, None)] /\
  ac_t <$> parse_binary_file (file_of_words two_frames_30s) = [1000%float].
Proof.
  split; [|split; [exact frame_table_none|];
             split; [exact frame_table_latest|];
             split; [exact parse_binary_file_spaced|]].
  - intros bytes. cbn [parse_binary_file parse_try]. unfold parse_points.
    destruct (length (fromfile bytes) =? 0)%nat; [constructor|].
    pose proof (scan_slices_markers (fromfile bytes)) as Hm.
    destruct (scan_slices (fromfile bytes)) as [found slices].
    destruct (found =? 0); [constructor|].
    destruct (for_slices (fromfile bytes) slices ∅ []) as [r| |] eqn:Hf;
      cbn; try constructor.
    apply for_slices_table in Hf as (new & -> & Hall); [exact Hall | exact Hm].
  - repeat split; vm_compute; reflexivity.
Qed.

(** C1 as stated fails: the identity record of frame 1 stores the call sign
    "BAW123  " and the squawk "1800" for 0abcde, and the position of the
    same aircraft in frame 2 is emitted with neither. *)
Lemma C1_identity_is_not_carried_to_next_frame :
  frame_table identity_then_next_frame 0 1 !! "0abcde"%string =
    Some (Some "BAW123  "%string, Some "1800"%string) /\
  (fun row => (ac_hex row, ac_flight row, ac_squawk row)) <$>
    parse_binary_file (file_of_words identity_then_next_frame) =
    [("0abcde"%string, None, None)].
Proof. split; vm_compute; reflexivity. Qed.

(** ** The fields of a row and the words of its record *)

(** Bit [n] of the type is bit [27 + n] of the word. *)
Lemma type_num_testbit w0 n :
  0 <= n -> Z.testbit (type_num w0) n = (n <? 5) && Z.testbit w0 (27 + n).
Proof.
  intros Hn. unfold type_num, as_uint32. change 31 with (Z.ones 5).
  rewrite Z.land_spec, Z.shiftr_spec by lia.
  destruct (Z.ltb_spec n 5) as [Hlt|Hge].
  - rewrite Z.ones_spec_low by lia. rewrite andb_true_r.
    rewrite Z.mod_pow2_bits_low by lia. cbn [andb]. f_equal. lia.
  - rewrite Z.ones_spec_high by lia. by rewrite andb_false_r.
Qed.

(** What the loop body appends: nothing, or one row made of the four words
    of the record at [i]. *)
Lemma record_body_row points now i acinfo last data st' :
  record_body points now i (acinfo, last, data) = Return st' ->
  st'.2 = data \/
  exists w0 lat lon w3 fl sq,
    points !! i = Some w0 /\ points !! (i + 1)%nat = Some lat /\
    points !! (i + 2)%nat = Some lon /\ points !! (i + 3)%nat = Some w3 /\
    st'.2 = data ++ [mk_row now w0 lat lon w3 fl sq].
Proof.
  intros H. apply record_body_Return in H
    as (w0 & lat & lon & fl & sq & acinfo' & H0 & H1 & H2 & _ & H).
  destruct H as [(w3 & Hr & H3 & Hk & ->) | [_ ->]]; [right|by left].
  by exists w0, lat, lon, w3, fl, sq.
Qed.

(** C4. The altitude of every emitted row is obtained from the fourth word
    of its own record: the low 16 bits read as a two's-complement number
    (which is what the program's [& 65535] and [|= -65536] compute), kept
    as -123 when that number is -123 and multiplied by 25 otherwise. This
    holds of the row the loop body appends for the record at any word [i],
    with the word at [i + 3], and of every row of every file, with the
    fourth word of the record the row belongs to; so every altitude is
    -123 or a multiple of 25. Raw altitudes 4, -4 and -123 give 100, -100
    and -123, not -3075. *)
Theorem C4_altitude_decoding :
  (forall w3,
     alt_raw w3 = signed16 (w3 mod 2 ^ 16) /\
     alt_raw w3 = (let low := Z.land w3 65535 in
                   if Z.testbit low 15 then Z.lor low (-65536) else low)) /\
  (forall points now i acinfo last data st',
     record_body points now i (acinfo, last, data) = Return st' ->
     st'.2 = data \/
     exists w3 row,
       points !! (i + 3)%nat = Some w3 /\ st'.2 = data ++ [row] /\
       ac_alt row = (let a := signed16 (w3 mod 2 ^ 16) in
                     if a =? -123 then -123 else a * 25)) /\
  (forall bytes,
     Forall (fun row =>
               exists s k w3,
                 frame_row (fromfile bytes) s k row /\
                 fromfile bytes !! (s + 4 + 4 * k + 3)%nat = Some w3 /\
                 ac_alt row = (let a := signed16 (w3 mod 2 ^ 16) in
                               if a =? -123 then -123 else a * 25) /\
                 (ac_alt row = -123 \/ (25 | ac_alt row)))
            (parse_binary_file (Contents bytes))) /\
  ac_alt <$> parse_binary_file
    (file_of_words (header 0 1000000 ++ position_at_47N_8E 0x0ABCDE (2500 * 65536 + 4)))
    = [100] /\
  ac_alt <$> parse_binary_file
    (file_of_words (header 0 1000000 ++ position_at_47N_8E 0x0ABCDE (2500 * 65536 + 65532)))
    = [-100] /\
  ac_alt <$> parse_binary_file
    (file_of_words (header 0 1000000 ++ position_at_47N_8E 0x0ABCDE (2500 * 65536 + 65413)))
    = [-123].
Proof.
  assert (Halt : forall now w0 lat lon w3 fl sq,
            ac_alt (mk_row now w0 lat lon w3 fl sq) =
            (let a := signed16 (w3 mod 2 ^ 16) in if a =? -123 then -123 else a * 25)).
  { intros. cbn [mk_row ac_alt]. unfold alt_final. by rewrite alt_raw_signed16. }
  split; [|split; [|split; [|split; [|split]]]].
  - intros w3. split; [apply alt_raw_signed16|].
    unfold alt_raw. cbv zeta.
    assert (Hbit : forall low, (Z.land low 32768 =? 0) = negb (Z.testbit low 15)).
    { intros low. change 32768 with (2 ^ 15).
      destruct (Z.testbit low 15) eqn:Hb; simpl.
      - apply Z.eqb_neq. intros H0.
        assert (Hc : Z.testbit (Z.land low (2 ^ 15)) 15 = true)
          by (rewrite Z.land_spec, Hb, Z.pow2_bits_true by lia; reflexivity).
        rewrite H0 in Hc. by rewrite Z.bits_0 in Hc.
      - apply Z.eqb_eq, Z.bits_inj'. intros n Hn.
        rewrite Z.land_spec, Z.bits_0.
        destruct (Z.eq_dec n 15) as [->|Hne]; [by rewrite Hb|].
        rewrite (Z.pow2_bits_false 15 n) by lia. apply andb_false_r. }
    rewrite Hbit. by destruct (Z.testbit _ 15).
  - intros points now i acinfo last data st' H.
    apply record_body_row in H
      as [H|(w0 & lat & lon & w3 & fl & sq & _ & _ & _ & H3 & H)]; [by left|].
    right. exists w3, (mk_row now w0 lat lon w3 fl sq). split; [exact H3|].
    split; [exact H | apply Halt].
  - intros bytes. eapply Forall_impl; [apply parse_binary_file_frame_rows|].
    intros row (s & k & Hrow). exists s, k.
    pose proof Hrow as (u1 & u2 & w0 & lat & lon & w3 & _ & _ & _ & _ & _ & _ & _ & H3 & ->).
    exists w3. split; [exact Hrow|]. split; [exact H3|]. split; [apply Halt|].
    rewrite Halt. cbv zeta. destruct (_ =? -123); [by left|].
    right. exists (signed16 (w3 mod 2 ^ 16)). lia.
  - vm_compute. reflexivity.
  - vm_compute. reflexivity.
  - vm_compute. reflexivity.
Qed.

(** C6, as the program has it. The type of every emitted row is the 5-bit
    field in bits 27..31 of the first word of its own record read as
    unsigned: bit [n] of the type is bit [27 + n] of that word, and the
    value lies between 0 and 31. This holds of the row the loop body
    appends for the record at any word [i], with the word at [i], and of
    every row of every file, with the first word of the record the row
    belongs to. The program stores the field as it is and never looks it
    up in its table of 13 names: 3, 13 and 31 are stored alike. *)
Theorem C6_type_is_five_bit_field :
  (forall w0,
     type_num w0 = ((w0 mod 2 ^ 32) / 2 ^ 27) mod 2 ^ 5 /\
     0 <= type_num w0 <= 31 /\
     forall n, 0 <= n ->
       Z.testbit (type_num w0) n = (n <? 5) && Z.testbit w0 (27 + n)) /\
  (forall points now i acinfo last data st',
     record_body points now i (acinfo, last, data) = Return st' ->
     st'.2 = data \/
     exists w0 row,
       points !! i = Some w0 /\ st'.2 = data ++ [row] /\
       ac_type row = ((w0 mod 2 ^ 32) / 2 ^ 27) mod 2 ^ 5) /\
  (forall bytes,
     Forall (fun row =>
               exists s k w0,
                 frame_row (fromfile bytes) s k row /\
                 fromfile bytes !! (s + 4 + 4 * k)%nat = Some w0 /\
                 ac_type row = ((w0 mod 2 ^ 32) / 2 ^ 27) mod 2 ^ 5 /\
                 (forall n, 0 <= n < 5 ->
                    Z.testbit (ac_type row) n = Z.testbit w0 (27 + n)) /\
                 0 <= ac_type row <= 31)
            (parse_binary_file (Contents bytes))) /\
  ac_type <$> parse_binary_file
    (file_of_words (header 0 1000000 ++ position_at_47N_8E (-1) 4)) = [31] /\
  ac_type <$> parse_binary_file
    (file_of_words (header 0 1000000 ++ position_at_47N_8E (0x0ABCDE + 13 * 2 ^ 27) 4))
    = [13] /\
  ac_type <$> parse_binary_file
    (file_of_words (header 0 1000000 ++ position_at_47N_8E (0x0ABCDE + 3 * 2 ^ 27) 4))
    = [3].
Proof.
  split; [|split; [|split; [|split; [|split]]]].
  - intros w0. split; [apply type_num_bits|]. split; [apply type_num_range|].
    apply type_num_testbit.
  - intros points now i acinfo last data st' H.
    apply record_body_row in H
      as [H|(w0 & lat & lon & w3 & fl & sq & H0 & _ & _ & _ & H)]; [by left|].
    right. exists w0, (mk_row now w0 lat lon w3 fl sq). split; [exact H0|].
    split; [exact H | apply type_num_bits].
  - intros bytes. eapply Forall_impl; [apply parse_binary_file_frame_rows|].
    intros row (s & k & Hrow). exists s, k.
    pose proof Hrow as (u1 & u2 & w0 & lat & lon & w3 & _ & _ & _ & _ & H0 & _ & _ & _ & ->).
    exists w0. split; [exact Hrow|]. split; [exact H0|]. cbn [mk_row ac_type].
    split; [apply type_num_bits|]. split; [|apply type_num_range].
    intros n Hn. rewrite type_num_testbit by lia.
    by replace (n <? 5) with true by (symmetry; apply Z.ltb_lt; lia).
  - vm_compute. reflexivity.
  - vm_compute. reflexivity.
  - vm_compute. reflexivity.
Qed.

(** C5, as the program has it. The ground speed of every emitted row is
    obtained from the fourth word of its own record: [gs_raw] is that
    signed word shifted right arithmetically by 16, its floor quotient by
    2^16, between -32768 and 32767; the speed is absent exactly when
    [gs_raw] is -1 and is [gs_raw / 10] otherwise. This holds of the row
    the loop body appends for the record at any word [i], with the word at
    [i + 3], and of every row of every file, with the fourth word of the
    record the row belongs to. The speed is non-negative when [gs_raw] is,
    and negative when [gs_raw] is below -1: the program tests for -1 only.
    Raw speeds 2500, -1 and -2 give 250, none and -0.2. *)
Theorem C5_ground_speed_decoding :
  (forall w3,
     gs_raw w3 = w3 / 2 ^ 16 /\
     (is_int32 w3 -> - 2 ^ 15 <= gs_raw w3 < 2 ^ 15)) /\
  (forall points now i acinfo last data st',
     record_body points now i (acinfo, last, data) = Return st' ->
     st'.2 = data \/
     exists w3 row,
       points !! (i + 3)%nat = Some w3 /\ st'.2 = data ++ [row] /\
       (ac_gs row = None <-> w3 / 2 ^ 16 = -1) /\
       (w3 / 2 ^ 16 <> -1 -> ac_gs row = Some (float_of_Z (w3 / 2 ^ 16) / 10)%float)) /\
  (forall bytes,
     Forall (fun row =>
               exists s k w3,
                 frame_row (fromfile bytes) s k row /\
                 fromfile bytes !! (s + 4 + 4 * k + 3)%nat = Some w3 /\
                 is_int32 w3 /\ - 2 ^ 15 <= w3 / 2 ^ 16 < 2 ^ 15 /\
                 (ac_gs row = None <-> w3 / 2 ^ 16 = -1) /\
                 (w3 / 2 ^ 16 <> -1 ->
                  ac_gs row = Some (float_of_Z (w3 / 2 ^ 16) / 10)%float) /\
                 (forall v, ac_gs row = Some v ->
                    (0 <= w3 / 2 ^ 16 -> (0 <=? v)%float = true) /\
                    (w3 / 2 ^ 16 < -1 -> (v <? 0)%float = true)))
            (parse_binary_file (Contents bytes))) /\
  ac_gs <$> parse_binary_file
    (file_of_words (header 0 1000000 ++ position_at_47N_8E 0x0ABCDE (2500 * 65536 + 4)))
    = [Some 250%float] /\
  ac_gs <$> parse_binary_file
    (file_of_words (header 0 1000000 ++ position_at_47N_8E 0x0ABCDE (-1 * 65536 + 4)))
    = [None] /\
  ac_gs <$> parse_binary_file
    (file_of_words (header 0 1000000 ++ position_at_47N_8E 0x0ABCDE (-2 * 65536 + 4)))
    = [Some (-0.2)%float].
Proof.
  assert (Hgs : forall now w0 lat lon w3 fl sq,
            (ac_gs (mk_row now w0 lat lon w3 fl sq) = None <-> w3 / 2 ^ 16 = -1) /\
            (w3 / 2 ^ 16 <> -1 ->
             ac_gs (mk_row now w0 lat lon w3 fl sq) =
               Some (float_of_Z (w3 / 2 ^ 16) / 10)%float)).
  { intros. cbn [mk_row ac_gs]. unfold gs_final. rewrite gs_raw_div.
    destruct (Z.eqb_spec (w3 / 2 ^ 16) (-1)) as [He|Hne].
    - split; [tauto | contradiction].
    - split; [split; [discriminate | contradiction] | reflexivity]. }
  split; [|split; [|split; [|split; [|split]]]].
  - intros w3. split; [apply gs_raw_div | apply gs_raw_range].
  - intros points now i acinfo last data st' H.
    apply record_body_row in H
      as [H|(w0 & lat & lon & w3 & fl & sq & _ & _ & _ & H3 & H)]; [by left|].
    right. exists w3, (mk_row now w0 lat lon w3 fl sq). split; [exact H3|].
    split; [exact H | apply Hgs].
  - intros bytes. eapply Forall_impl; [apply parse_binary_file_frame_rows|].
    intros row (s & k & Hrow). exists s, k.
    pose proof Hrow as (u1 & u2 & w0 & lat & lon & w3 & _ & _ & _ & _ & _ & _ & _ & H3 & ->).
    exists w3. split; [exact Hrow|]. split; [exact H3|].
    assert (Hw3 : is_int32 w3).
    { pose proof (fromfile_int32 bytes) as Hall. rewrite Forall_lookup in Hall.
      by eapply Hall. }
    split; [exact Hw3|].
    pose proof (gs_raw_range w3 Hw3) as Hg. rewrite gs_raw_div in Hg.
    split; [exact Hg|].
    destruct (Hgs (frame_time u1 u2) w0 lat lon w3
                (acinfo_get (frame_table (fromfile bytes) s (S k)) (hex_of w0)).1
                (acinfo_get (frame_table (fromfile bytes) s (S k)) (hex_of w0)).2)
      as [Hnone Hsome].
    split; [exact Hnone|]. split; [exact Hsome|].
    intros v Hv.
    destruct (Z.eq_dec (w3 / 2 ^ 16) (-1)) as [He|Hne].
    + apply Hnone in He. congruence.
    + rewrite (Hsome Hne) in Hv. injection Hv as <-. split; intros Hs.
      * apply gs_nonneg. lia.
      * apply gs_negative. lia.
  - vm_compute. reflexivity.
  - vm_compute. reflexivity.
  - vm_compute. reflexivity.
Qed.

(** ** Re-encoding a record *)

Lemma uint_of_string_zeros n s :
  HexadecimalString.NilEmpty.uint_of_string (zeros n +:+ s) =
  Nat.iter n Hexadecimal.D0 <$> HexadecimalString.NilEmpty.uint_of_string s.
Proof.
  induction n as [|n IH].
  - change (zeros 0 +:+ s) with s.
    destruct (HexadecimalString.NilEmpty.uint_of_string s); reflexivity.
  - change (zeros (S n) +:+ s) with (String "0" (zeros n +:+ s)).
    cbn [HexadecimalString.NilEmpty.uint_of_string]. rewrite IH.
    destruct (HexadecimalString.NilEmpty.uint_of_string s); reflexivity.
Qed.

Lemma of_hex_uint_zeros n d :
  N.of_hex_uint (Nat.iter n Hexadecimal.D0 d) = N.of_hex_uint d.
Proof. induction n as [|n IH]; [reflexivity | exact IH]. Qed.

Lemma uint_of_string_format_x width v :
  0 <= v ->
  exists d, HexadecimalString.NilEmpty.uint_of_string (format_x width v) = Some d /\
            Z.of_N (N.of_hex_uint d) = v.
Proof.
  intros Hv. unfold format_x, zfill. rewrite uint_of_string_zeros.
  assert (H : exists d, HexadecimalString.NilEmpty.uint_of_string
                (HexadecimalString.NilZero.string_of_uint (N.to_hex_uint (Z.to_N v))) = Some d /\
              N.of_hex_uint d = Z.to_N v).
  { pose proof (HexadecimalN.Unsigned.of_to (Z.to_N v)) as Hof.
    destruct (N.to_hex_uint (Z.to_N v)) as [|d|d|d|d|d|d|d|d|d|d|d|d|d|d|d|d] eqn:Hd.
    1:{ exists (Hexadecimal.D0 Hexadecimal.Nil). split; [reflexivity|]. by rewrite <- Hof. }
    all: eexists; split; [apply HexadecimalString.NilEmpty.usu | exact Hof]. }
  destruct H as (d & -> & Hd). eexists. split; [reflexivity|].
  rewrite of_hex_uint_zeros, Hd. lia.
Qed.

Lemma uint_of_string_tilde s :
  HexadecimalString.NilEmpty.uint_of_string (String "~" s) = None.
Proof. cbn. by destruct (HexadecimalString.NilEmpty.uint_of_string s). Qed.

Lemma land_pow2 a n :
  0 <= n -> Z.land a (2 ^ n) = if Z.testbit a n then 2 ^ n else 0.
Proof.
  intros Hn. apply Z.bits_inj'. intros m Hm. rewrite Z.land_spec.
  destruct (Z.eq_dec m n) as [->|Hne].
  - rewrite Z.pow2_bits_true by lia.
    destruct (Z.testbit a n); [by rewrite Z.pow2_bits_true by lia | by rewrite Z.bits_0].
  - rewrite (Z.pow2_bits_false n m) by lia. rewrite andb_false_r.
    destruct (Z.testbit a n); [by rewrite Z.pow2_bits_false by lia | by rewrite Z.bits_0].
Qed.

Lemma layout_hex_hex_of w0 :
  layout_hex (hex_of w0) = Z.land w0 16777215 + Z.land w0 (2 ^ 24).
Proof.
  unfold hex_of. cbv zeta. change (Z.shiftl 1 24) with (2 ^ 24).
  assert (Hv : 0 <= Z.land w0 16777215) by (apply Z.land_nonneg; lia).
  destruct (uint_of_string_format_x 6 _ Hv) as (d & Hd & Hval).
  destruct (Z.eqb_spec (Z.land w0 (2 ^ 24)) 0) as [H0|Hne].
  - rewrite H0, Z.add_0_r. unfold layout_hex.
    destruct (format_x 6 (Z.land w0 16777215)) as [|c rest] eqn:Hf.
    + cbn in Hd. injection Hd as <-. by rewrite <- Hval.
    + destruct (Ascii.eqb_spec c "~") as [->|_].
      * by rewrite uint_of_string_tilde in Hd.
      * unfold hex_value. by rewrite Hd.
  - change ("~" ++ format_x 6 (Z.land w0 16777215))%string
      with (String "~" (format_x 6 (Z.land w0 16777215))).
    unfold layout_hex. rewrite Ascii.eqb_refl. unfold hex_value. rewrite Hd, Hval.
    rewrite land_pow2 in * by lia. destruct (Z.testbit w0 24); [reflexivity | congruence].
Qed.

Lemma word0_round_trip w0 :
  Z.testbit w0 25 = false -> Z.testbit w0 26 = false ->
  as_uint32 (layout_hex (hex_of w0) + type_num w0 * 2 ^ 27) = as_uint32 w0.
Proof.
  intros H25 H26. rewrite layout_hex_hex_of, land_pow2, type_num_bits by lia.
  change 16777215 with (Z.ones 24). rewrite Z.land_ones by lia.
  apply Z.testbit_false in H25, H26; try lia.
  assert (H24 : (if Z.testbit w0 24 then 2 ^ 24 else 0) = (w0 / 2 ^ 24) mod 2 * 2 ^ 24).
  { destruct (Z.testbit w0 24) eqn:Hb.
    - apply Z.testbit_true in Hb; [|lia]. by rewrite Hb.
    - apply Z.testbit_false in Hb; [|lia]. by rewrite Hb. }
  rewrite H24. unfold as_uint32.
  change (2 ^ 24) with 16777216 in *. change (2 ^ 25) with 33554432 in *.
  change (2 ^ 26) with 67108864 in *. change (2 ^ 27) with 134217728 in *.
  change (2 ^ 32) with 4294967296 in *. change (2 ^ 5) with 32 in *.
  Z.div_mod_to_equations. lia.
Qed.

Lemma word3_round_trip w3 :
  alt_raw w3 mod 2 ^ 16 + gs_raw w3 * 2 ^ 16 = w3.
Proof.
  rewrite alt_raw_signed16, gs_raw_div. unfold signed16.
  pose proof (Z.mod_pos_bound w3 (2 ^ 16)) as Hm.
  change (2 ^ 16) with 65536 in *. change (2 ^ 15) with 32768.
  destruct (Z.ltb_spec (w3 mod 65536) 32768); Z.div_mod_to_equations; lia.
Qed.

Lemma word_bytes_uint32 x y : as_uint32 x = as_uint32 y -> word_bytes x = word_bytes y.
Proof. unfold word_bytes. by intros ->. Qed.

Lemma byte_of_Z_val b : byte_of_Z (byte_val b) = b.
Proof. unfold byte_of_Z, byte_val. by rewrite N2Z.id, Byte.of_to_N. Qed.

Lemma word_bytes_le b0 b1 b2 b3 :
  word_bytes (as_int32 (le_uint32 b0 b1 b2 b3)) =
  [byte_val b0; byte_val b1; byte_val b2; byte_val b3].
Proof.
  pose proof (le_uint32_range b0 b1 b2 b3) as Hu.
  assert (Hr : as_uint32 (as_int32 (le_uint32 b0 b1 b2 b3)) = le_uint32 b0 b1 b2 b3).
  { unfold as_uint32, as_int32. change (2 ^ 31) with 2147483648.
    change (2 ^ 32) with 4294967296 in *.
    destruct (Z.ltb_spec (le_uint32 b0 b1 b2 b3) 2147483648);
      Z.div_mod_to_equations; lia. }
  unfold word_bytes. rewrite Hr. clear Hr Hu. unfold le_uint32.
  pose proof (byte_val_range b0). pose proof (byte_val_range b1).
  pose proof (byte_val_range b2). pose proof (byte_val_range b3).
  change 255 with (Z.ones 8).
  rewrite !Z.land_ones, !Z.shiftr_div_pow2, !Z.shiftl_mul_pow2 by lia.
  change (2 ^ 8) with 256. change (2 ^ 16) with 65536. change (2 ^ 24) with 16777216.
  repeat f_equal; Z.div_mod_to_equations; lia.
Qed.

Lemma tobytes_fromfile bytes :
  (Nat.divide 4 (length bytes)) -> tobytes (fromfile bytes) = bytes.
Proof.
  induction bytes as [bs Hs | b0 b1 b2 b3 rest IH] using fromfile_ind; intros [q Hq].
  - destruct bs as [|b bs]; [reflexivity|]. simpl in Hs, Hq. lia.
  - cbn [fromfile]. unfold tobytes, view_uint8. rewrite fmap_cons. cbn [concat].
    rewrite fmap_app, word_bytes_le. cbn [fmap list_fmap app].
    rewrite !byte_of_Z_val. do 4 f_equal.
    apply IH. exists (q - 1)%nat. simpl in Hq. lia.
Qed.

(** The row of a record is made of its raw fields. *)
Lemma mk_row_decode_raw now w0 w1 w2 w3 fl sq :
  let raw := decode_raw w0 w1 w2 w3 in
  mk_row now w0 w1 w2 w3 fl sq =
  {| ac_t := now; ac_hex := raw_hex raw; ac_flight := fl; ac_squawk := sq;
     ac_lat := degrees (raw_lat raw); ac_lon := degrees (raw_lon raw);
     ac_alt := alt_final (raw_alt raw); ac_gs := gs_final (raw_gs raw);
     ac_type := raw_type raw |}.
Proof. reflexivity. Qed.

(** C9, as the program has it. The six raw fields the loop body reads from
    a record give back its sixteen bytes, laid out as the specification
    has them, whenever bits 25 and 26 of the first word are 0; that holds
    for every record, a position that passes the coordinate test among
    them. The program reads those two bits into no field. *)
Theorem C9_round_trip_when_bits_25_26_clear bytes w0 w1 w2 w3 :
  length bytes = 16%nat ->
  fromfile bytes = [w0; w1; w2; w3] ->
  Z.testbit w0 25 = false -> Z.testbit w0 26 = false ->
  layout_encode (decode_raw w0 w1 w2 w3) = bytes.
Proof.
  intros Hlen Hwords H25 H26.
  rewrite <- (tobytes_fromfile bytes) at 1 by (exists 4%nat; lia).
  rewrite Hwords. unfold layout_encode, decode_raw. cbn [raw_hex raw_type raw_lat raw_lon raw_alt raw_gs].
  rewrite word3_round_trip. unfold tobytes, view_uint8. cbn [fmap list_fmap concat].
  by rewrite (word_bytes_uint32 _ w0 (word0_round_trip w0 H25 H26)).
Qed.

(** C9 as stated fails: two positions that pass the coordinate test and
    differ in bit 25 of the first word only have the same six raw fields,
    so no encoding of the fields gives back the bytes of both. *)
Lemma C9_fields_do_not_determine_bytes :
  ~ exists enc : raw_record -> list byte,
      forall bytes w0 w1 w2 w3,
        length bytes = 16%nat -> fromfile bytes = [w0; w1; w2; w3] ->
        w1 <= 1073741824 -> in_range (degrees w1) (degrees w2) = true ->
        enc (decode_raw w0 w1 w2 w3) = bytes.
Proof.
  intros [enc H].
  pose proof (H (tobytes (position_at_47N_8E 0x0ABCDE 4)) 0x0ABCDE 47000000 8000000 4
                eq_refl eq_refl ltac:(lia) eq_refl) as H1.
  pose proof (H (tobytes (position_at_47N_8E (0x0ABCDE + 2 ^ 25) 4))
                (0x0ABCDE + 2 ^ 25) 47000000 8000000 4
                eq_refl eq_refl ltac:(lia) eq_refl) as H2.
  assert (Hsame : decode_raw (0x0ABCDE + 2 ^ 25) 47000000 8000000 4 =
                  decode_raw 0x0ABCDE 47000000 8000000 4) by (vm_compute; reflexivity).
  rewrite Hsame, H1 in H2. vm_compute in H2. discriminate.
Qed.

(** ** The theorems at concrete inputs *)

(** C7 at the identity record of the third scenario, read at word 4 of its
    file with an empty table: the squawk stored is "1800". *)
Lemma C7_squawk_rendering_witness :
  1073741824 < 1073741824 + 65536 + 1800 /\
  identity_part identity_then_same_frame 4 0x0ABCDE (1073741824 + 65536 + 1800) ∅ =
    Return (Some "BAW123  "%string, Some "1800"%string,
            <["0abcde"%string := (Some "BAW123  "%string, Some "1800"%string)]> ∅) /\
  (<["0abcde"%string := (Some "BAW123  "%string, Some "1800"%string)]> ∅
     : gmap string (option string * option string)) !! hex_of 0x0ABCDE =
    Some (Some "BAW123  "%string, Some "1800"%string) /\
  Some "1800"%string = Some (squawk_of (1073741824 + 65536 + 1800)) /\
  decimal_value (squawk_of (1073741824 + 65536 + 1800)) =
    Some ((1073741824 + 65536 + 1800) mod 2 ^ 16) /\
  String.length (squawk_of (1073741824 + 65536 + 1800)) =
    (if (1073741824 + 65536 + 1800) mod 2 ^ 16 <? 10000 then 4%nat else 5%nat).
Proof.
  assert (H1 : 1073741824 < 1073741824 + 65536 + 1800) by lia.
  assert (H2 : identity_part identity_then_same_frame 4 0x0ABCDE
                 (1073741824 + 65536 + 1800) ∅ =
               Return (Some "BAW123  "%string, Some "1800"%string,
                       <["0abcde"%string :=
                           (Some "BAW123  "%string, Some "1800"%string)]> ∅))
    by (vm_compute; reflexivity).
  split; [exact H1|]. split; [exact H2|].
  exact (C7_squawk_rendering _ _ _ _ _ _ _ _ H1 H2).
Defined.

(** C9 at the position of the second scenario. *)
Lemma C9_round_trip_witness :
  length (tobytes (position_0abcde 47000000)) = 16%nat /\
  fromfile (tobytes (position_0abcde 47000000)) =
    [0x0ABCDE; 47000000; 8000000; 2500 * 65536 + 4] /\
  Z.testbit 0x0ABCDE 25 = false /\ Z.testbit 0x0ABCDE 26 = false /\
  layout_encode (decode_raw 0x0ABCDE 47000000 8000000 (2500 * 65536 + 4)) =
    tobytes (position_0abcde 47000000).
Proof.
  assert (H1 : length (tobytes (position_0abcde 47000000)) = 16%nat)
    by (vm_compute; reflexivity).
  assert (H2 : fromfile (tobytes (position_0abcde 47000000)) =
               [0x0ABCDE; 47000000; 8000000; 2500 * 65536 + 4])
    by (vm_compute; reflexivity).
  assert (H3 : Z.testbit 0x0ABCDE 25 = false) by reflexivity.
  assert (H4 : Z.testbit 0x0ABCDE 26 = false) by reflexivity.
  repeat (split; [assumption|]).
  exact (C9_round_trip_when_bits_25_26_clear _ _ _ _ _ H1 H2 H3 H4).
Defined.

(** ** Further properties of the decoder *)

Lemma string_length_app (s1 s2 : string) :
  String.length (s1 +:+ s2) = (String.length s1 + String.length s2)%nat.
Proof.
  induction s1 as [|c s1 IH]; [reflexivity|].
  change (S (String.length (s1 +:+ s2)) = S (String.length s1 + String.length s2)).
  by rewrite IH.
Qed.

Lemma all_chars_app P (s1 s2 : string) :
  all_chars P (s1 +:+ s2) = all_chars P s1 && all_chars P s2.
Proof.
  unfold all_chars. induction s1 as [|c s1 IH]; [reflexivity|].
  change (P c && forallb P (list_ascii_of_string (s1 +:+ s2)) =
          P c && forallb P (list_ascii_of_string s1) &&
          forallb P (list_ascii_of_string s2)).
  by rewrite IH, andb_assoc.
Qed.

Lemma zeros_length n : String.length (zeros n) = n.
Proof.
  induction n as [|n IH]; [reflexivity|].
  change (S (String.length (zeros n)) = S n). by rewrite IH.
Qed.

Lemma zeros_hex n : all_chars lower_hex_char (zeros n) = true.
Proof. induction n as [|n IH]; [reflexivity|]. exact IH. Qed.

Lemma hex_string_length d :
  String.length (HexadecimalString.NilEmpty.string_of_uint d) = Hexadecimal.nb_digits d.
Proof. induction d; cbn; congruence. Qed.

Lemma hex_string_chars d :
  all_chars lower_hex_char (HexadecimalString.NilEmpty.string_of_uint d) = true.
Proof. induction d; [reflexivity | exact IHd ..]. Qed.

Lemma of_hex_uint_acc_lower l : forall acc,
  Zpos acc * 16 ^ Z.of_nat (Hexadecimal.nb_digits l) <= Zpos (Pos.of_hex_uint_acc l acc).
Proof.
  induction l as [|l IH|l IH|l IH|l IH|l IH|l IH|l IH|l IH|l IH|l IH|l IH|l IH|l IH|l IH|l IH|l IH];
    intros acc; cbn [Pos.of_hex_uint_acc Hexadecimal.nb_digits];
    [ cbn; lia | .. ];
    rewrite Nat2Z.inj_succ, Z.pow_succ_r by lia;
    (etransitivity; [|apply IH]);
    assert (0 < 16 ^ Z.of_nat (Hexadecimal.nb_digits l)) by (apply Z.pow_pos_nonneg; lia);
    nia.
Qed.

Lemma nzhead_lower d :
  Hexadecimal.nzhead d <> Hexadecimal.Nil ->
  16 ^ (Z.of_nat (Hexadecimal.nb_digits (Hexadecimal.nzhead d)) - 1) <=
  Z.of_N (N.of_hex_uint (Hexadecimal.nzhead d)).
Proof.
  induction d as [|l IH|l IH|l IH|l IH|l IH|l IH|l IH|l IH|l IH|l IH|l IH|l IH|l IH|l IH|l IH|l IH];
    intros Hn; [by destruct Hn | exact (IH Hn) | ..];
    cbn [Hexadecimal.nzhead Hexadecimal.nb_digits N.of_hex_uint Pos.of_hex_uint];
    rewrite Nat2Z.inj_succ;
    replace (Z.succ (Z.of_nat (Hexadecimal.nb_digits l)) - 1)
      with (Z.of_nat (Hexadecimal.nb_digits l)) by lia;
    (etransitivity; [|apply of_hex_uint_acc_lower]);
    assert (0 < 16 ^ Z.of_nat (Hexadecimal.nb_digits l)) by (apply Z.pow_pos_nonneg; lia);
    lia.
Qed.

Lemma to_hex_uint_digits n k :
  (0 < k)%nat -> Z.of_N n < 16 ^ Z.of_nat k ->
  (Hexadecimal.nb_digits (N.to_hex_uint n) <= k)%nat.
Proof.
  intros Hk Hn.
  pose proof (HexadecimalN.Unsigned.of_to n) as Hof.
  pose proof (HexadecimalN.Unsigned.to_of (N.to_hex_uint n)) as Hto.
  rewrite Hof in Hto. set (d := N.to_hex_uint n) in *.
  unfold Hexadecimal.unorm in Hto.
  destruct (Hexadecimal.nzhead d) eqn:Hz;
    try (rewrite Hto; cbn; lia);
    (assert (Hne : Hexadecimal.nzhead d <> Hexadecimal.Nil) by (rewrite Hz; discriminate);
     pose proof (nzhead_lower d Hne) as Hlow;
     rewrite Hz, <- Hto, Hof in Hlow;
     destruct (le_lt_dec (Hexadecimal.nb_digits d) k) as [Hle|Hgt]; [exact Hle|];
     exfalso;
     assert (16 ^ Z.of_nat k <= 16 ^ (Z.of_nat (Hexadecimal.nb_digits d) - 1))
       by (apply Z.pow_le_mono_r; lia);
     lia).
Qed.

Lemma format_x_6_shape v :
  0 <= v < 2 ^ 24 ->
  String.length (format_x 6 v) = 6%nat /\
  all_chars lower_hex_char (format_x 6 v) = true /\
  hex_value (format_x 6 v) = v.
Proof.
  intros Hv. unfold format_x, zfill.
  set (d := N.to_hex_uint (Z.to_N v)).
  assert (Hd : (Hexadecimal.nb_digits d <= 6)%nat).
  { apply to_hex_uint_digits; [lia|]. rewrite Z2N.id by lia.
    change (16 ^ Z.of_nat 6) with (2 ^ 24). lia. }
  assert (Hs : HexadecimalString.NilZero.string_of_uint d =
               HexadecimalString.NilEmpty.string_of_uint d \/
               HexadecimalString.NilZero.string_of_uint d = "0"%string).
  { destruct d; [by right | by left ..]. }
  split; [|split].
  - rewrite string_length_app, zeros_length.
    destruct Hs as [-> | ->]; [rewrite hex_string_length; lia | reflexivity].
  - rewrite all_chars_app, zeros_hex.
    destruct Hs as [-> | ->]; [apply hex_string_chars | reflexivity].
  - destruct (uint_of_string_format_x 6 v) as (d' & Hd' & Hval); [lia|].
    unfold hex_value. unfold format_x, zfill in Hd'. fold d in Hd'. by rewrite Hd'.
Qed.

(** X1. The identifier of a record is six lower-case hexadecimal digits,
    the low 24 bits of its first word, with a tilde before them exactly
    when bit 24 of that word is set. *)
Theorem X1_hex_is_six_digits_with_optional_tilde w0 :
  exists digits,
    hex_of w0 = (if Z.testbit w0 24 then String "~" digits else digits) /\
    String.length digits = 6%nat /\
    all_chars lower_hex_char digits = true /\
    hex_value digits = w0 mod 2 ^ 24.
Proof.
  exists (format_x 6 (Z.land w0 16777215)).
  assert (Hv : Z.land w0 16777215 = w0 mod 2 ^ 24)
    by (change 16777215 with (Z.ones 24); by rewrite Z.land_ones by lia).
  pose proof (Z.mod_pos_bound w0 (2 ^ 24)) as Hm.
  destruct (format_x_6_shape (Z.land w0 16777215)) as (Hl & Hc & Hval); [lia|].
  split; [|by rewrite <- Hv].
  unfold hex_of. cbv zeta. change (Z.shiftl 1 24) with (2 ^ 24).
  rewrite land_pow2 by lia. by destruct (Z.testbit w0 24).
Qed.

Lemma hex_of_low25 w0 : hex_of w0 = hex_of (w0 mod 2 ^ 25).
Proof.
  unfold hex_of. cbv zeta. change (Z.shiftl 1 24) with (2 ^ 24).
  change 16777215 with (Z.ones 24). rewrite !Z.land_ones, !land_pow2 by lia.
  replace ((w0 mod 2 ^ 25) mod 2 ^ 24) with (w0 mod 2 ^ 24).
  2:{ change (2 ^ 25) with 33554432. change (2 ^ 24) with 16777216.
      Z.div_mod_to_equations. lia. }
  replace (Z.testbit (w0 mod 2 ^ 25) 24) with (Z.testbit w0 24)
    by (symmetry; apply Z.mod_pow2_bits_low; lia).
  reflexivity.
Qed.

Lemma layout_hex_low25 w0 : layout_hex (hex_of w0) = w0 mod 2 ^ 25.
Proof.
  rewrite layout_hex_hex_of, land_pow2 by lia.
  change 16777215 with (Z.ones 24). rewrite Z.land_ones by lia.
  assert (H24 : (if Z.testbit w0 24 then 2 ^ 24 else 0) = (w0 / 2 ^ 24) mod 2 * 2 ^ 24).
  { destruct (Z.testbit w0 24) eqn:Hb.
    - apply Z.testbit_true in Hb; [|lia]. by rewrite Hb.
    - apply Z.testbit_false in Hb; [|lia]. by rewrite Hb. }
  rewrite H24. change (2 ^ 24) with 16777216. change (2 ^ 25) with 33554432.
  Z.div_mod_to_equations. lia.
Qed.

(** X2. Two records get the same identifier exactly when their first
    words agree in the low 25 bits: the address and the tilde bit, and
    nothing of the type field or of bits 25 and 26. *)
Theorem X2_hex_identifies_low_25_bits w w' :
  hex_of w = hex_of w' <-> w mod 2 ^ 25 = w' mod 2 ^ 25.
Proof.
  split; intros H.
  - by rewrite <- !layout_hex_low25, H.
  - by rewrite (hex_of_low25 w), (hex_of_low25 w'), H.
Qed.
Lemma view_uint8_length (points : list Z) :
  length (view_uint8 points) = (4 * length points)%nat.
Proof.
  unfold view_uint8. induction points as [|w ps IH]; [reflexivity|].
  cbn [fmap list_fmap concat]. rewrite length_app, IH. cbn [length word_bytes]. lia.
Qed.

Lemma view_uint8_lookup (points : list Z) : forall k j,
  (j < 4)%nat ->
  view_uint8 points !! (4 * k + j)%nat =
  match points !! k with
  | Some w => word_bytes w !! j
  | None => None
  end.
Proof.
  unfold view_uint8. induction points as [|w ps IH]; intros k j Hj.
  - by rewrite !lookup_nil.
  - cbn [fmap list_fmap concat]. destruct k as [|k].
    + rewrite lookup_app_l by (cbn; lia). reflexivity.
    + rewrite lookup_app_r by (cbn; lia).
      replace (4 * S k + j - length (word_bytes w))%nat with (4 * k + j)%nat
        by (cbn [length word_bytes]; lia).
      by rewrite IH.
Qed.

Lemma getitem_view_uint8 (points : list Z) k j :
  (j < 4)%nat ->
  getitem (view_uint8 points) (4 * k + j) =
  match points !! k with
  | Some w => getitem (word_bytes w) j
  | None => Raise IndexError
  end.
Proof.
  intros Hj. unfold getitem. rewrite view_uint8_lookup by assumption.
  by destruct (points !! k).
Qed.

(** The call sign of the record at word [i], case by case. *)
Lemma read_flight_cases (points : list Z) i :
  read_flight points i =
  match points !! (i + 2)%nat with
  | None => Raise IndexError
  | Some w2 =>
      if Z.land (as_uint32 w2) 255 =? 0 then Return None
      else match points !! (i + 3)%nat with
           | None => Raise IndexError
           | Some w3 =>
               Return (Some (string_of_bytes (word_bytes w2 ++ word_bytes w3)))
           end
  end.
Proof.
  unfold read_flight. cbv zeta.
  replace (4 * (i + 2))%nat with (4 * (i + 2) + 0)%nat at 1 by lia.
  rewrite getitem_view_uint8 by lia.
  destruct (points !! (i + 2)%nat) as [w2|] eqn:L2; [|reflexivity].
  cbn [getitem word_bytes lookup list_lookup mbind outcome_bind].
  destruct (Z.land (as_uint32 w2) 255 =? 0); [reflexivity|].
  cbn [flight_loop seq].
  replace (4 * (i + 2) + 4)%nat with (4 * (i + 3) + 0)%nat by lia.
  replace (4 * (i + 2) + 5)%nat with (4 * (i + 3) + 1)%nat by lia.
  replace (4 * (i + 2) + 6)%nat with (4 * (i + 3) + 2)%nat by lia.
  replace (4 * (i + 2) + 7)%nat with (4 * (i + 3) + 3)%nat by lia.
  rewrite !getitem_view_uint8 by lia. rewrite L2.
  cbn [getitem word_bytes lookup list_lookup mbind outcome_bind].
  destruct (points !! (i + 3)%nat) as [w3|] eqn:L3; reflexivity.
Qed.
Lemma scan_fold (points : list Z) (l : list nat) : forall found slices,
  foldl (fun '(found, slices) i =>
           match points !! i with
           | Some w => if w =? sentinel then (1, slices ++ [i]) else (found, slices)
           | None => (found, slices)
           end) (found, slices) l =
  (match filter (fun i => points !! i = Some sentinel) l with
   | [] => found
   | _ => 1
   end,
   slices ++ filter (fun i => points !! i = Some sentinel) l).
Proof.
  induction l as [|i l IH]; intros found slices.
  - cbn. by rewrite app_nil_r.
  - cbn [foldl]. rewrite filter_cons.
    destruct (points !! i) as [w|] eqn:Hi.
    + destruct (Z.eqb_spec w sentinel) as [->|Hne].
      * rewrite IH. rewrite decide_True by reflexivity.
        rewrite <- app_assoc. cbn [app].
        by destruct (filter _ l).
      * rewrite IH. rewrite decide_False by congruence. reflexivity.
    + rewrite IH. rewrite decide_False by congruence. reflexivity.
Qed.

Lemma elem_of_range4 n i : i ∈ range4 n <-> Nat.divide 4 i /\ (i < n)%nat.
Proof.
  unfold range4. rewrite list_elem_of_fmap. split.
  - intros (k & -> & Hk). apply elem_of_seq in Hk.
    split; [exists k; lia|].
    pose proof (Nat.Div0.mul_div_le (n + 3) 4) as H4.
    revert Hk H4. generalize ((n + 3) / 4)%nat. intros q Hk H4. lia.
  - intros [[k ->] Hi]. exists k. split; [lia|].
    apply elem_of_seq. split; [lia|].
    change (0 + (n + 3) / 4)%nat with ((n + 3) / 4)%nat.
    apply Nat.div_le_lower_bound; lia.
Qed.

(** The scan keeps, in increasing order, the word indices that are
    multiples of 4 and hold the marker; [found] tells whether there is one. *)
Lemma scan_slices_spec (points : list Z) :
  (scan_slices points).2 =
    filter (fun i => points !! i = Some sentinel) (range4 (length points)) /\
  (forall i, i ∈ (scan_slices points).2 <->
             Nat.divide 4 i /\ points !! i = Some sentinel) /\
  ((scan_slices points).1 = 0 <-> (scan_slices points).2 = []) /\
  ((scan_slices points).1 = 0 \/ (scan_slices points).1 = 1).
Proof.
  unfold scan_slices. rewrite scan_fold. cbn [fst snd app].
  split; [reflexivity|]. split; [|split].
  - intros i. rewrite list_elem_of_filter, elem_of_range4. split.
    + intros [Hs [Hd _]]. by split.
    + intros [Hd Hs]. split; [exact Hs|]. split; [exact Hd|].
      by apply lookup_lt_Some in Hs.
  - destruct (filter _ _); split; intros H; [reflexivity|reflexivity|discriminate|discriminate].
  - destruct (filter _ _); [by left | by right].
Qed.


Lemma bind_returns {A B : Type} (m : outcome A) (f : A -> outcome B) :
  returns m -> (forall a, returns (f a)) -> returns (m ≫= f).
Proof. intros [a ->] Hf. apply Hf. Qed.

Lemma getitem_returns {A : Type} (a : list A) (k : nat) :
  (k < length a)%nat -> returns (getitem a k).
Proof.
  intros Hk. unfold getitem. destruct (lookup_lt_is_Some_2 a k Hk) as [x ->].
  by exists x.
Qed.

Lemma record_body_returns (points : list Z) now i st :
  (i + 3 < length points)%nat -> returns (record_body points now i st).
Proof.
  intros Hi. destruct st as [[acinfo seen] data]. unfold record_body.
  apply bind_returns; [apply getitem_returns; lia | intros lat].
  apply bind_returns; [apply getitem_returns; lia | intros lon].
  apply bind_returns; [apply getitem_returns; lia | intros w0].
  apply bind_returns.
  - unfold identity_part. destruct (1073741824 <? lat); [|by eexists].
    apply bind_returns; [|intros fl; by eexists].
    rewrite read_flight_cases.
    destruct (lookup_lt_is_Some_2 points (i + 2)) as [w2 ->]; [lia|].
    destruct (lookup_lt_is_Some_2 points (i + 3)) as [w3 ->]; [lia|].
    destruct (Z.land (as_uint32 w2) 255 =? 0); by eexists.
  - intros [[fl sq] acinfo']. destruct (in_range _ _); [|by eexists].
    apply bind_returns; [apply getitem_returns; lia | intros w3].
    destruct (keep _ _ _); by eexists.
Qed.

Lemma while_records_returns (points : list Z) now fuel : forall i st,
  Nat.divide 4 (length points) -> Nat.divide 4 i ->
  (length points <= i + 4 * fuel)%nat ->
  returns (while_records (S fuel) points now i st).
Proof.
  induction fuel as [|fuel IH]; intros i st Hlen Hi Hfuel; cbn [while_records].
  - destruct (points !! i) eqn:L; [|by eexists].
    apply lookup_lt_Some in L. lia.
  - destruct (points !! i) eqn:L; [|by eexists].
    destruct (z =? sentinel); [by eexists|].
    apply lookup_lt_Some in L.
    destruct Hlen as [b Hb]. destruct Hi as [a Ha].
    apply bind_returns; [apply record_body_returns; lia | intros st'].
    apply IH; [by exists b | exists (a + 1)%nat; lia | lia].
Qed.

Lemma for_slices_returns (points : list Z) slices : forall seen data,
  Nat.divide 4 (length points) ->
  Forall (fun s => Nat.divide 4 s /\ (s < length points)%nat) slices ->
  returns (for_slices points slices seen data).
Proof.
  induction slices as [|s slices IH]; intros seen data Hlen Hall; [by eexists|].
  apply Forall_cons in Hall as [[Hs Hlt] Hall].
  rewrite for_slices_cons.
  assert (Hs3 : (s + 3 < length points)%nat)
    by (destruct Hlen as [b Hb]; destruct Hs as [a Ha]; lia).
  unfold view_uint32.
  apply bind_returns; [apply getitem_returns; rewrite length_fmap; lia | intros u2].
  apply bind_returns; [apply getitem_returns; rewrite length_fmap; lia | intros u1].
  apply bind_returns; [|intros st; by apply IH].
  apply while_records_returns; [exact Hlen | | lia].
  destruct Hs as [a Ha]. exists (a + 1)%nat. lia.
Qed.

Lemma parse_points_returns (points : list Z) :
  Nat.divide 4 (length points) -> returns (parse_points points).
Proof.
  intros Hlen. unfold parse_points.
  destruct (length points =? 0)%nat; [by eexists|].
  pose proof (scan_slices_spec points) as (_ & Hmem & _).
  destruct (scan_slices points) as [found slices]. cbn [snd] in Hmem.
  destruct (found =? 0); [by eexists|].
  apply bind_returns; [|intros r; by eexists].
  apply for_slices_returns; [exact Hlen|].
  apply Forall_forall. intros s Hs. apply Hmem in Hs as [Hd Hl].
  split; [exact Hd | by apply lookup_lt_Some in Hl].
Qed.

(** X5. A file whose length is a multiple of 16 bytes is parsed without any
    exception: what [parse_binary_file] returns is what the loops built,
    never the empty list of the [except] clause. *)
Theorem X5_complete_file_never_raises bytes :
  Nat.divide 16 (length bytes) ->
  parse_try (Contents bytes) = Return (parse_binary_file (Contents bytes)).
Proof.
  intros [q Hq]. cbn [parse_try parse_binary_file].
  destruct (parse_points_returns (fromfile bytes)) as [rows ->]; [|reflexivity].
  rewrite fromfile_length, Hq. exists q.
  replace (q * 16)%nat with (q * 4 * 4)%nat by lia.
  by rewrite Nat.div_mul.
Qed.


Lemma bind_index {A B : Type} (m : outcome A) (f : A -> outcome B) :
  raises_only_IndexError m -> (forall a, raises_only_IndexError (f a)) ->
  raises_only_IndexError (m ≫= f).
Proof.
  intros Hm Hf e. destruct m as [a|e'|]; cbn.
  - apply Hf.
  - intros [= <-]. by apply Hm.
  - discriminate.
Qed.

Lemma getitem_index {A : Type} (a : list A) (k : nat) :
  raises_only_IndexError (getitem a k).
Proof. unfold getitem. intros e. destruct (a !! k); congruence. Qed.

Lemma Return_index {A : Type} (x : A) : raises_only_IndexError (Return x).
Proof. intros e. discriminate. Qed.

Lemma read_flight_index (points : list Z) i :
  raises_only_IndexError (read_flight points i).
Proof.
  rewrite read_flight_cases. intros e.
  destruct (points !! (i + 2)%nat); [|congruence].
  destruct (Z.land _ 255 =? 0); [discriminate|].
  destruct (points !! (i + 3)%nat); congruence.
Qed.

Lemma record_body_index (points : list Z) now i st :
  raises_only_IndexError (record_body points now i st).
Proof.
  destruct st as [[acinfo seen] data]. unfold record_body.
  apply bind_index; [apply getitem_index | intros lat].
  apply bind_index; [apply getitem_index | intros lon].
  apply bind_index; [apply getitem_index | intros w0].
  apply bind_index.
  - unfold identity_part. destruct (1073741824 <? lat); [|apply Return_index].
    apply bind_index; [apply read_flight_index | intros fl; apply Return_index].
  - intros [[fl sq] acinfo']. destruct (in_range _ _); [|apply Return_index].
    apply bind_index; [apply getitem_index | intros w3].
    destruct (keep _ _ _); apply Return_index.
Qed.

Lemma while_records_index (points : list Z) now fuel : forall i st,
  raises_only_IndexError (while_records fuel points now i st).
Proof.
  induction fuel as [|fuel IH]; intros i st; cbn [while_records]; [discriminate|].
  destruct (points !! i); [|apply Return_index].
  destruct (z =? sentinel); [apply Return_index|].
  apply bind_index; [apply record_body_index | intros st'; apply IH].
Qed.

Lemma for_slices_index (points : list Z) slices : forall seen data,
  raises_only_IndexError (for_slices points slices seen data).
Proof.
  induction slices as [|s slices IH]; intros seen data; [apply Return_index|].
  rewrite for_slices_cons.
  apply bind_index; [apply getitem_index | intros u2].
  apply bind_index; [apply getitem_index | intros u1].
  apply bind_index; [apply while_records_index | intros st; apply IH].
Qed.

Lemma for_slices_headers (points : list Z) slices : forall seen data r,
  for_slices points slices seen data = Return r ->
  Forall (fun s => (s + 2 < length points)%nat) slices.
Proof.
  induction slices as [|s slices IH]; intros seen data r H; [constructor|].
  rewrite for_slices_cons in H.
  apply bind_Return_inv in H as (u2 & Hu2 & H).
  apply bind_Return_inv in H as (u1 & _ & H).
  apply bind_Return_inv in H as (st & _ & H).
  constructor; [|by eapply IH].
  apply getitem_Return, lookup_lt_Some in Hu2.
  unfold view_uint32 in Hu2. by rewrite length_fmap in Hu2.
Qed.

(** X6. A marker on a record boundary with fewer than two words after it
    makes the whole parse end in [IndexError], whatever the frames before
    it hold: the time of that last frame cannot be read. *)
Theorem X6_cut_header_loses_the_file (points : list Z) s :
  Nat.divide 4 s -> points !! s = Some sentinel ->
  (length points <= s + 2)%nat ->
  parse_points points = Raise IndexError.
Proof.
  intros Hd Hs Hlen.
  pose proof (scan_slices_spec points) as (_ & Hmem & Hfound & _).
  assert (Hin : s ∈ (scan_slices points).2) by (apply Hmem; by split).
  unfold parse_points.
  replace (length points =? 0)%nat with false
    by (symmetry; apply Nat.eqb_neq; apply lookup_lt_Some in Hs; lia).
  destruct (scan_slices points) as [found slices]. cbn [fst snd] in *.
  replace (found =? 0) with false.
  2:{ symmetry. apply Z.eqb_neq. intros H0. apply Hfound in H0. subst slices.
      by apply elem_of_nil in Hin. }
  pose proof (for_slices_fuel points slices ∅ []) as Hfuel.
  pose proof (for_slices_index points slices ∅ []) as Hidx.
  pose proof (for_slices_headers points slices ∅ []) as Hhead.
  destruct (for_slices points slices ∅ []) as [r|e|]; cbn.
  - exfalso. specialize (Hhead r eq_refl). rewrite Forall_forall in Hhead.
    specialize (Hhead s Hin). lia.
  - by rewrite (Hidx e eq_refl).
  - by destruct Hfuel.
Qed.


Lemma read_flight_shape (points : list Z) i fl :
  read_flight points i = Return fl -> callsign_shape fl.
Proof.
  rewrite read_flight_cases.
  destruct (points !! (i + 2)%nat) as [w2|]; [|discriminate].
  destruct (Z.eqb_spec (Z.land (as_uint32 w2) 255) 0) as [_|Hne].
  - by intros [= <-].
  - destruct (points !! (i + 3)%nat) as [w3|]; [|discriminate].
    intros [= <-]. split; [reflexivity|]. by exists w2, w3.
Qed.

Lemma squawk_of_shape lat : squawk_shape (Some (squawk_of lat)).
Proof.
  pose proof (Z.mod_pos_bound lat (2 ^ 16)) as Hm.
  exists (lat mod 2 ^ 16). rewrite squawk_of_low16.
  split; [lia|]. split; [reflexivity|].
  split; [apply format_d_4_value | apply format_d_4_length]; lia.
Qed.

Lemma frame_table_shape (points : list Z) s h n :
  identity_shape (acinfo_get (frame_table points s n) h).
Proof.
  induction n as [|n IH].
  - unfold acinfo_get. cbn [frame_table]. rewrite lookup_empty. by repeat split.
  - cbn [frame_table]. unfold identity_update.
    destruct (points !! (s + 4 + 4 * n)%nat) as [w0|]; [|exact IH].
    destruct (points !! (s + 4 + 4 * n + 1)%nat) as [lat|]; [|exact IH].
    destruct (1073741824 <? lat); [|exact IH].
    destruct (read_flight points (s + 4 + 4 * n)) as [fl| |] eqn:Hfl; try exact IH.
    unfold acinfo_get in *.
    destruct (decide (hex_of w0 = h)) as [<-|Hne].
    + rewrite lookup_insert_eq. cbn.
      split; [by eapply read_flight_shape|]. split; [apply squawk_of_shape | discriminate].
    + by rewrite lookup_insert_ne.
Qed.

(** X7. In every row of every file, the call sign, when present, has
    exactly eight characters (the bytes of the third and fourth word of an
    identity record, the first not 0); the squawk, when present, is the
    decimal rendering of a value below 65536, four or five characters
    long; and a row without squawk has no call sign. *)
Theorem X7_rows_call_sign_and_squawk f :
  Forall (fun row =>
            callsign_shape (ac_flight row) /\ squawk_shape (ac_squawk row) /\
            (ac_squawk row = None -> ac_flight row = None))
         (parse_binary_file f).
Proof.
  destruct f as [| |bytes]; try constructor.
  eapply Forall_impl; [apply parse_binary_file_frame_rows|].
  intros row (s & k & u1 & u2 & w0 & lat & lon & w3 & _ & _ & _ & _ & _ & _ & _ & _ & ->).
  apply (frame_table_shape (fromfile bytes) s (hex_of w0) (S k)).
Qed.


Lemma SFsub_self x :
  SFsub prec emax x x = S754_zero false \/ SFsub prec emax x x = S754_nan.
Proof.
  destruct x as [s|s| |s m e]; cbn [SFsub].
  - left. by destruct s.
  - right. by destruct s.
  - by right.
  - left. rewrite Z.min_id. unfold shl_align. rewrite Z.sub_diag. cbn [fst].
    reflexivity.
Qed.

Lemma keep_same_time (now : float) : (60 <=? now - now)%float = false.
Proof.
  rewrite FloatAxioms.leb_spec, FloatAxioms.sub_spec.
  change (Prim2SF 60) with (S754_finite false 8444249301319680 (-47)).
  unfold SF64sub. by destruct (SFsub_self (Prim2SF now)) as [-> | ->].
Qed.

Lemma spaced60_no_repeat ts : spaced60 ts -> no_repeat ts.
Proof.
  induction ts as [|t1 [|t2 ts] IH]; intros Hs; try exact I.
  destruct Hs as [H12 Hs]. split; [|by apply IH].
  intros ->. by rewrite keep_same_time in H12.
Qed.

(** X8. In the rows of one hex, no row has the time of the row before it:
    a second position of an aircraft in the same frame (or in a frame with
    the same time) is held back, since [now - now >= 60] is false for
    every double, the infinite and the undefined ones included. *)
Theorem X8_same_time_never_twice f h : no_repeat (track h (parse_binary_file f)).
Proof. apply spaced60_no_repeat, parse_binary_file_spaced. Qed.


Lemma fromfile_app bytes tail :
  Nat.divide 4 (length bytes) ->
  fromfile (bytes ++ tail) = fromfile bytes ++ fromfile tail.
Proof.
  induction bytes as [bs Hs | b0 b1 b2 b3 rest IH] using fromfile_ind; intros [q Hq].
  - destruct bs as [|b bs]; [reflexivity|]. cbn in Hs, Hq. lia.
  - cbn [app fromfile]. rewrite IH; [reflexivity|].
    exists (q - 1)%nat. cbn in Hq. lia.
Qed.

(** X9. Up to three bytes after the last whole 32-bit word of a file change
    nothing: [np.fromfile] reads whole words only. *)
Theorem X9_stray_bytes_ignored bytes tail :
  Nat.divide 4 (length bytes) -> (length tail < 4)%nat ->
  parse_binary_file (Contents (bytes ++ tail)) = parse_binary_file (Contents bytes).
Proof.
  intros Hb Ht. cbn [parse_binary_file parse_try].
  by rewrite fromfile_app, (fromfile_short tail), app_nil_r.
Qed.

(** X3. Reading the call sign of the record at word [i]: [IndexError] when
    the file ends before word [i + 2]; no call sign when the low byte of
    that word is 0; otherwise [IndexError] when the file ends before word
    [i + 3], and else the eight bytes of the two words, lowest address
    first, as eight characters. *)
Theorem X3_call_sign_reading (points : list Z) i :
  read_flight points i =
  match points !! (i + 2)%nat with
  | None => Raise IndexError
  | Some w2 =>
      if Z.land (as_uint32 w2) 255 =? 0 then Return None
      else match points !! (i + 3)%nat with
           | None => Raise IndexError
           | Some w3 =>
               Return (Some (string_of_bytes (word_bytes w2 ++ word_bytes w3)))
           end
  end /\
  (forall w2 w3,
     String.length (string_of_bytes (word_bytes w2 ++ word_bytes w3)) = 8%nat).
Proof. split; [apply read_flight_cases | reflexivity]. Qed.

(** X4. The frames of a file start at the word indices that are multiples
    of 4 and hold the marker, taken in increasing order; a marker at any
    other index starts nothing, and [found] is 0 exactly when there is no
    such index. *)
Theorem X4_frames_start_at_markers_on_record_boundaries (points : list Z) :
  (scan_slices points).2 =
    filter (fun i => points !! i = Some sentinel) (range4 (length points)) /\
  (forall i, i ∈ (scan_slices points).2 <->
             Nat.divide 4 i /\ points !! i = Some sentinel) /\
  ((scan_slices points).1 = 0 <-> (scan_slices points).2 = []) /\
  ((scan_slices points).1 = 0 \/ (scan_slices points).1 = 1).
Proof. exact (scan_slices_spec points). Qed.

(** X5 at the file of one frame with one position (32 bytes). *)
Lemma X5_complete_file_witness :
  Nat.divide 16 (length (tobytes (header 0 1000000 ++ position_0abcde 47000000))) /\
  parse_try whole_file = Return (parse_binary_file whole_file).
Proof.
  assert (H : Nat.divide 16
                (length (tobytes (header 0 1000000 ++ position_0abcde 47000000))))
    by (exists 2%nat; vm_compute; reflexivity).
  split; [exact H|].
  exact (X5_complete_file_never_raises _ H).
Defined.

(** X6 at a file of one whole frame followed by a marker and one more
    word. *)
Lemma X6_cut_header_witness :
  Nat.divide 4 8 /\
  cut_header_words !! 8%nat = Some sentinel /\
  (length cut_header_words <= 8 + 2)%nat /\
  parse_points cut_header_words = Raise IndexError.
Proof.
  assert (H1 : Nat.divide 4 8) by (exists 2%nat; reflexivity).
  assert (H2 : cut_header_words !! 8%nat = Some sentinel) by reflexivity.
  assert (H3 : (length cut_header_words <= 8 + 2)%nat) by (simpl; lia).
  repeat (split; [assumption|]).
  exact (X6_cut_header_loses_the_file _ _ H1 H2 H3).
Defined.

(** X9 at the same file with one byte added. *)
Lemma X9_stray_bytes_witness :
  Nat.divide 4 (length (tobytes (header 0 1000000 ++ position_0abcde 47000000))) /\
  (length [x01] < 4)%nat /\
  parse_binary_file
    (Contents (tobytes (header 0 1000000 ++ position_0abcde 47000000) ++
               [x01])) =
  parse_binary_file
    (Contents (tobytes (header 0 1000000 ++ position_0abcde 47000000))).
Proof.
  assert (H1 : Nat.divide 4
                 (length (tobytes (header 0 1000000 ++ position_0abcde 47000000))))
    by (exists 8%nat; vm_compute; reflexivity).
  assert (H2 : (length [x01] < 4)%nat) by (simpl; lia).
  repeat (split; [assumption|]).
  exact (X9_stray_bytes_ignored _ _ H1 H2).
Defined.

(** * The batch and the command *)

(** ** The filter on the names *)

Lemma uint_of_char_digit c d x :
  DecimalString.uint_of_char c d = Some x -> isdigit_char c = true /\ exists d', d = Some d'.
Proof.
  destruct d as [d'|];
    destruct c as [[] [] [] [] [] [] [] []]; intros H; try discriminate H;
    (split; [reflexivity | by exists d']).
Qed.

Lemma decimal_value_isdigit s v :
  decimal_value s = Some v -> all_chars isdigit_char s = true /\ 0 <= v.
Proof.
  unfold decimal_value. intros H.
  destruct (DecimalString.NilEmpty.uint_of_string s) as [d|] eqn:Hd; [|discriminate].
  injection H as <-. split; [|lia].
  revert d Hd. induction s as [|c s IH]; intros d Hd; [reflexivity|].
  cbn [DecimalString.NilEmpty.uint_of_string] in Hd.
  apply uint_of_char_digit in Hd as [Hc [d' Hd']].
  unfold all_chars. cbn. rewrite Hc. exact (IH d' Hd').
Qed.

Lemma is_slot_true name :
  is_slot name = Some true <->
  name <> EmptyString /\ exists v, decimal_value name = Some v /\ v <= 47.
Proof.
  unfold is_slot. split.
  - destruct (isdigit name) eqn:Hd; [|discriminate].
    destruct (decimal_value name) as [v|] eqn:Hv; [|discriminate].
    intros [= H]. apply andb_true_iff in H as [_ H]. apply Z.leb_le in H.
    split; [by destruct name | by exists v].
  - intros [Hne (v & Hv & Hle)].
    destruct (decimal_value_isdigit name v Hv) as [Hall H0].
    replace (isdigit name) with true by (destruct name; [done | by symmetry]).
    rewrite Hv. f_equal. apply andb_true_iff. split; [by apply Z.leb_le | by apply Z.leb_le].
Qed.

Lemma is_slot_None name :
  is_slot name = None <-> isdigit name = true /\ decimal_value name = None.
Proof.
  unfold is_slot. destruct (isdigit name); [|split; [discriminate | by intros [? _]]].
  destruct (decimal_value name); split; try discriminate; try done.
  by intros [_ ?].
Qed.

Lemma hidden_is_no_slot name : hidden name = true -> is_slot name = Some false.
Proof.
  destruct name as [|c s]; [discriminate|]. cbn [hidden]. intros Hc.
  apply Ascii.eqb_eq in Hc as ->. reflexivity.
Qed.

Lemma numeric_files_Some files kept :
  numeric_files files = Some kept ->
  Forall (fun e => is_slot e.1 <> None) files /\
  kept = filter (fun e => is_slot e.1 = Some true) files.
Proof.
  revert kept. induction files as [|e files IH]; intros kept H; cbn in H.
  - injection H as <-. by split.
  - destruct (is_slot e.1) as [b|] eqn:Hb; [|discriminate].
    destruct (numeric_files files) as [kept'|]; [|discriminate].
    injection H as <-. destruct (IH kept' eq_refl) as [Hall ->].
    split; [constructor; [by rewrite Hb | done]|].
    rewrite filter_cons. destruct b; case_decide; congruence.
Qed.

Lemma numeric_files_None files :
  numeric_files files = None <-> exists e, e ∈ files /\ is_slot e.1 = None.
Proof.
  induction files as [|e files IH]; cbn.
  - split; [discriminate | intros (e & He & _); by apply elem_of_nil in He].
  - destruct (is_slot e.1) as [b|] eqn:Hb.
    + destruct (numeric_files files) as [kept|].
      * split; [discriminate|]. intros (e' & He' & Hn).
        apply elem_of_cons in He' as [->|He']; [congruence|].
        destruct IH as [_ IH]. discriminate IH. by exists e'.
      * split; [intros _|done]. destruct IH as [IH _].
        destruct (IH eq_refl) as (e' & He' & Hn). exists e'. split; [by right | done].
    + split; [intros _|done]. exists e. split; [by left | done].
Qed.

(** ** Sorting *)

Lemma insert_sorted_perm {A} (le : A -> A -> bool) x l :
  insert_sorted le x l ≡ₚ x :: l.
Proof.
  induction l as [|y l IH]; cbn; [done|].
  destruct (le x y); [done|]. rewrite IH. apply Permutation_swap.
Qed.

Lemma sort_by_perm {A} (le : A -> A -> bool) l : sort_by le l ≡ₚ l.
Proof.
  induction l as [|x l IH]; cbn; [done|].
  fold (sort_by le l). by rewrite insert_sorted_perm, IH.
Qed.

Section SortBy.
Context {A : Type} (le : A -> A -> bool).
Hypothesis le_total : forall a b, le a b = true \/ le b a = true.
Hypothesis le_trans : forall a b c, le a b = true -> le b c = true -> le a c = true.

Lemma insert_sorted_sorted x l :
  StronglySorted (fun a b => le a b = true) l ->
  StronglySorted (fun a b => le a b = true) (insert_sorted le x l).
Proof.
  induction 1 as [|y l Hs IH Hy]; cbn.
  - by repeat constructor.
  - destruct (le x y) eqn:Hxy.
    + constructor; [by constructor|]. constructor; [done|].
      eapply Forall_impl; [exact Hy|]. intros z Hz. by eapply le_trans.
    + constructor; [done|].
      assert (le y x = true) as Hyx by (destruct (le_total x y); congruence).
      rewrite insert_sorted_perm. by constructor.
Qed.

Lemma sort_by_sorted l : StronglySorted (fun a b => le a b = true) (sort_by le l).
Proof.
  induction l as [|x l IH]; cbn; [constructor|].
  by apply insert_sorted_sorted.
Qed.

End SortBy.

Lemma StronglySorted_weaken {A} (R1 R2 : A -> A -> Prop) l :
  (forall a b, R1 a b -> R2 a b) -> StronglySorted R1 l -> StronglySorted R2 l.
Proof.
  intros HR. induction 1 as [|x l Hs IH Hx]; constructor; [done|].
  eapply Forall_impl; [exact Hx|]. intros b. apply HR.
Qed.

(** One partition. *)

Lemma bad_name_not_hidden name : bad_name name -> hidden name = false.
Proof.
  intros [Hd Hv]. destruct (hidden name) eqn:Hh; [|done].
  apply hidden_is_no_slot in Hh. unfold is_slot in Hh. rewrite Hd, Hv in Hh. discriminate.
Qed.

Lemma slot_files_None entries :
  slot_files entries = None <-> exists e, e ∈ entries /\ bad_name e.1.
Proof.
  unfold slot_files. rewrite fmap_None, numeric_files_None. unfold glob_star. split.
  - intros (e & He & Hn). apply list_elem_of_filter in He as [_ He].
    exists e. split; [done|]. by apply is_slot_None.
  - intros (e & He & Hb). exists e. split; [|by apply is_slot_None].
    apply list_elem_of_filter. split; [by apply bad_name_not_hidden | done].
Qed.

Lemma slot_files_elem entries files :
  slot_files entries = Some files ->
  forall e, e ∈ files <-> e ∈ entries /\ slot_name e.1.
Proof.
  unfold slot_files. intros H. apply fmap_Some in H as (kept & Hk & ->).
  apply numeric_files_Some in Hk as [_ ->]. intros e.
  rewrite sort_by_perm, list_elem_of_filter. unfold glob_star.
  rewrite list_elem_of_filter, is_slot_true. split.
  - intros [Hs [_ He]]. by split.
  - intros [He Hs]. split; [done|]. split; [|done].
    destruct (hidden e.1) eqn:Hh; [|done].
    apply hidden_is_no_slot in Hh. apply is_slot_true in Hs. congruence.
Qed.

Lemma slot_files_sorted entries files :
  slot_files entries = Some files ->
  StronglySorted (fun a b => slot_of a.1 <= slot_of b.1) files.
Proof.
  unfold slot_files. intros H. apply fmap_Some in H as (kept & _ & ->).
  eapply StronglySorted_weaken; cycle 1.
  - apply (sort_by_sorted (fun a b : string * node => slot_of a.1 <=? slot_of b.1)).
    + intros a b. rewrite !Z.leb_le. lia.
    + intros a b c. rewrite !Z.leb_le. lia.
  - intros a b. by rewrite Z.leb_le.
Qed.

(** ** The two loops *)

Lemma total_records_cons f files :
  total_records (f :: files) = (add_file 0 f + total_records files)%nat.
Proof. unfold total_records. cbn [foldl]. by rewrite foldl_add_file. Qed.

Lemma mapM_cons_option {A B : Type} (f : A -> option B) x l :
  mapM f (x :: l) = y ← f x; k ← mapM f l; Some (y :: k).
Proof. reflexivity. Qed.

Section Batch.
Variable strptime_ok : string -> bool.
Variable to_sql_ok : list (list aircraft) -> list aircraft -> bool.

Lemma for_files_inv c label files : forall st st' r,
  for_files to_sql_ok c label files st = (st', r) -> batch_inv st -> batch_inv st'.
Proof.
  induction files as [|e files IH]; intros st st' r H Hinv; cbn [for_files] in H.
  - by injection H as <- _.
  - destruct (parse_binary_file (file_at e.2)) as [|row data] eqn:Hp.
    + apply IH in H; [done|]. destruct Hinv as [Ht Hf]. by destruct c.
    + destruct (to_sql_ok (b_inserted st) (row :: data)) eqn:Hs; [|by injection H as <- _].
      apply IH in H; [done|]. destruct Hinv as [Ht Hf].
      assert (batch_inv {| b_total := b_total st + length (row :: data);
                           b_cleanup := b_cleanup st;
                           b_inserted := b_inserted st ++ [row :: data] |}) as Hinv'.
      { split; cbn [b_total b_inserted].
        - rewrite concat_app, length_app, Ht. cbn [concat]. by rewrite app_nil_r.
        - apply Forall_app. split; [done|]. by repeat constructor. }
      by destruct c.
Qed.

Lemma for_files_done c label files : forall st st',
  for_files to_sql_ok c label files st = (st', None) ->
  b_inserted st' = b_inserted st ++
    filter (fun rows => rows <> []) ((fun e => parse_binary_file (file_at e.2)) <$> files) /\
  b_total st' = (b_total st + total_records ((fun e => file_at e.2) <$> files))%nat /\
  b_cleanup st' = b_cleanup st ++ (if c then (fun e => (label, e.1)) <$> files else []).
Proof.
  induction files as [|e files IH]; intros st st' H; cbn [for_files] in H.
  - injection H as <-. cbn. rewrite !app_nil_r. unfold total_records. cbn.
    split; [done|]. split; [lia|]. destruct c; by rewrite app_nil_r.
  - rewrite !fmap_cons, total_records_cons, filter_cons. unfold add_file.
    destruct (parse_binary_file (file_at e.2)) as [|row data] eqn:Hp.
    + apply IH in H as (Hi & Ht & Hc). rewrite decide_False by (intros ?; done).
      destruct c; cbn [b_total b_cleanup b_inserted] in *.
      * rewrite Hi, Ht, Hc, <- app_assoc. split; [done|]. split; [lia | done].
      * rewrite Hi, Ht, Hc. split; [done|]. split; [lia | done].
    + destruct (to_sql_ok (b_inserted st) (row :: data)) eqn:Hs; [|discriminate].
      apply IH in H as (Hi & Ht & Hc). rewrite decide_True by done.
      destruct c; cbn [b_total b_cleanup b_inserted] in *.
      * rewrite Hi, Ht, Hc, <- !app_assoc. split; [done|]. split; [lia | done].
      * rewrite Hi, Ht, Hc, <- !app_assoc. split; [done|]. split; [lia | done].
Qed.

Lemma for_files_fail c label files : forall st st' e,
  for_files to_sql_ok c label files st = (st', Some e) ->
  e = LoaderError /\
  exists f, f ∈ files /\ parse_binary_file (file_at f.2) <> [] /\
            to_sql_ok (b_inserted st') (parse_binary_file (file_at f.2)) = false.
Proof.
  induction files as [|f files IH]; intros st st' e H; cbn [for_files] in H; [discriminate|].
  destruct (parse_binary_file (file_at f.2)) as [|row data] eqn:Hp.
  - apply IH in H as (-> & f' & Hf' & Hr). split; [done|]. exists f'. split; [by right | done].
  - destruct (to_sql_ok (b_inserted st) (row :: data)) eqn:Hs.
    + apply IH in H as (-> & f' & Hf' & Hr). split; [done|]. exists f'. split; [by right | done].
    + injection H as <- <-. split; [done|]. exists f. rewrite Hp. split; [by left | done].
Qed.

Lemma tagged_nil : tagged [] = Some [].
Proof. reflexivity. Qed.

Lemma tagged_cons label es parts :
  tagged ((label, es) :: parts) =
  files ← slot_files es; rest ← tagged parts; Some (((fun e => (label, e)) <$> files) ++ rest).
Proof.
  unfold tagged. rewrite mapM_cons_option. cbn [fst snd].
  destruct (slot_files es) as [files|]; [|reflexivity].
  destruct (mapM _ parts); reflexivity.
Qed.

Lemma for_date_dirs_inv c parts : forall st st' r,
  for_date_dirs to_sql_ok c parts st = (st', r) -> batch_inv st -> batch_inv st'.
Proof.
  induction parts as [|[label es] parts IH]; intros st st' r H Hinv; cbn [for_date_dirs] in H.
  - by injection H as <- _.
  - destruct (slot_files es) as [files|]; [|by injection H as <- _].
    destruct (for_files to_sql_ok c label files st) as [st1 [e|]] eqn:Hf.
    + injection H as <- _. by eapply for_files_inv.
    + eapply IH; [exact H|]. by eapply for_files_inv.
Qed.

Lemma for_date_dirs_done c parts : forall st st',
  for_date_dirs to_sql_ok c parts st = (st', None) ->
  exists sched, tagged parts = Some sched /\
    b_inserted st' = b_inserted st ++ filter (fun rows => rows <> []) (rows_of <$> sched) /\
    b_total st' = (b_total st + total_records ((fun x => file_at x.2.2) <$> sched))%nat /\
    b_cleanup st' = b_cleanup st ++ (if c then path_of <$> sched else []).
Proof.
  induction parts as [|[label es] parts IH]; intros st st' H; cbn [for_date_dirs] in H.
  - injection H as <-. exists []. rewrite tagged_nil. cbn. rewrite !app_nil_r.
    split; [done|]. split; [done|]. split; [unfold total_records; cbn; lia|].
    destruct c; by rewrite app_nil_r.
  - rewrite tagged_cons. destruct (slot_files es) as [files|]; [|discriminate].
    destruct (for_files to_sql_ok c label files st) as [st1 [e|]] eqn:Hf; [discriminate|].
    apply for_files_done in Hf as (Hi1 & Ht1 & Hc1).
    apply IH in H as (rest & Hrest & Hi & Ht & Hc). rewrite Hrest. cbn.
    exists (((fun e => (label, e)) <$> files) ++ rest). split; [done|].
    rewrite !fmap_app, filter_app, total_records_app, <- !list_fmap_compose.
    split; [|split].
    + rewrite Hi, Hi1, <- app_assoc. done.
    + rewrite Ht, Ht1. unfold compose. cbn. lia.
    + rewrite Hc, Hc1, <- app_assoc. by destruct c.
Qed.

Lemma for_date_dirs_fail c parts : forall st st' e,
  for_date_dirs to_sql_ok c parts st = (st', Some e) ->
  exists label es, (label, es) ∈ parts /\
    match e with
    | ValueError => slot_files es = None
    | LoaderError =>
        exists files f, slot_files es = Some files /\ f ∈ files /\
          parse_binary_file (file_at f.2) <> [] /\
          to_sql_ok (b_inserted st') (parse_binary_file (file_at f.2)) = false
    end.
Proof.
  induction parts as [|[label es] parts IH]; intros st st' e H; cbn [for_date_dirs] in H;
    [discriminate|].
  destruct (slot_files es) as [files|] eqn:Hs.
  - destruct (for_files to_sql_ok c label files st) as [st1 [e1|]] eqn:Hf.
    + injection H as <- <-. apply for_files_fail in Hf as (-> & f & Hf & Hr & Hsql).
      exists label, es. split; [by left|]. by exists files, f.
    + apply IH in H as (label' & es' & Hin & H). exists label', es'. split; [by right | done].
  - injection H as _ <-. exists label, es. split; [by left | done].
Qed.

Lemma for_date_dirs_bad c parts : forall st label es,
  (label, es) ∈ parts -> slot_files es = None ->
  exists st' e, for_date_dirs to_sql_ok c parts st = (st', Some e).
Proof.
  induction parts as [|[label' es'] parts IH]; intros st label es Hin Hs.
  - by apply elem_of_nil in Hin.
  - cbn [for_date_dirs]. apply elem_of_cons in Hin as [[= <- <-]|Hin].
    + rewrite Hs. by eexists _, _.
    + destruct (slot_files es') as [files|]; [|by eexists _, _].
      destruct (for_files to_sql_ok c label' files st) as [st1 [e1|]]; [by eexists _, _|].
      by eapply IH.
Qed.

End Batch.

(** ** Partitions and schedule *)

Lemma string_compare_trans s1 : forall s2 s3,
  String.compare s1 s2 <> Gt -> String.compare s2 s3 <> Gt -> String.compare s1 s3 <> Gt.
Proof.
  induction s1 as [|c1 s1 IH]; intros [|c2 s2] [|c3 s3]; cbn; try congruence.
  unfold Ascii.compare.
  destruct (N.compare_spec (N_of_ascii c1) (N_of_ascii c2)) as [H12|H12|H12];
    destruct (N.compare_spec (N_of_ascii c2) (N_of_ascii c3)) as [H23|H23|H23];
    destruct (N.compare_spec (N_of_ascii c1) (N_of_ascii c3)) as [H13|H13|H13];
    try congruence; try lia.
  apply IH.
Qed.

Lemma string_leb_trans s1 s2 s3 :
  String.leb s1 s2 = true -> String.leb s2 s3 = true -> String.leb s1 s3 = true.
Proof.
  unfold String.leb. intros H12 H23.
  pose proof (string_compare_trans s1 s2 s3) as H.
  destruct (String.compare s1 s2), (String.compare s2 s3), (String.compare s1 s3);
    try done; exfalso; apply H; congruence.
Qed.

Section Partitions.
Variable strptime_ok : string -> bool.

Lemma date_dirs_elem entries d es :
  (d, es) ∈ date_dirs strptime_ok entries <->
  (d, Folder es) ∈ entries /\ is_date_dir strptime_ok (d, Folder es) = true.
Proof.
  unfold date_dirs. rewrite list_elem_of_omap. split.
  - intros ([name [contents|es']] & Hin & H); cbn in H; [discriminate|].
    destruct (is_date_dir strptime_ok (name, Folder es')) eqn:Hd; [|discriminate].
    by injection H as -> ->.
  - intros [Hin Hd]. exists (d, Folder es). split; [done|]. cbn [snd fst]. by rewrite Hd.
Qed.

Lemma date_dirs_names entries :
  fst <$> date_dirs strptime_ok entries `sublist_of` fst <$> entries.
Proof.
  induction entries as [|[name n] entries IH]; cbn; [constructor|].
  destruct n as [contents|es]; cbn.
  - by constructor.
  - destruct (is_date_dir strptime_ok (name, Folder es)); cbn; by constructor.
Qed.

Lemma partitions_elem entries label es :
  (label, es) ∈ partitions strptime_ok entries <->
  (label = None /\ es = entries /\ date_dirs strptime_ok entries = []) \/
  (exists d, label = Some d /\ (d, Folder es) ∈ entries /\
             is_date_dir strptime_ok (d, Folder es) = true).
Proof.
  unfold partitions. destruct (date_dirs strptime_ok entries) as [|d0 dirs] eqn:Hd.
  - rewrite list_elem_of_singleton. split.
    + intros [= -> ->]. by left.
    + intros [(-> & -> & _)|(d & -> & Hin & Hok)]; [done|].
      assert ((d, es) ∈ date_dirs strptime_ok entries) as H by by apply date_dirs_elem.
      rewrite Hd in H. by apply elem_of_nil in H.
  - rewrite list_elem_of_fmap. split.
    + intros ([d es'] & [= -> ->] & Hin). right. exists d. split; [done|].
      rewrite sort_by_perm, <- Hd in Hin. by apply date_dirs_elem.
    + intros [(_ & _ & ?)|(d & -> & Hin & Hok)]; [done|].
      exists (d, es). split; [done|]. rewrite sort_by_perm, <- Hd. by apply date_dirs_elem.
Qed.

Lemma sorted_distinct (l : list (string * list (string * node))) :
  NoDup (fst <$> l) ->
  StronglySorted (fun a b => String.leb a.1 b.1 = true) l ->
  StronglySorted (fun p q => label_lt p.1 q.1) ((fun d => (Some d.1, d.2)) <$> l).
Proof.
  induction l as [|d l IH]; cbn; intros Hnd Hs; [constructor|].
  apply NoDup_cons in Hnd as [Hd Hnd]. apply StronglySorted_inv in Hs as [Hs Hall].
  constructor; [by apply IH|]. apply Forall_fmap.
  rewrite Forall_forall in Hall |- *. intros q Hq. cbn. split; [|by apply Hall].
  intros Heq. apply Hd. rewrite Heq. apply list_elem_of_fmap. by exists q.
Qed.

Lemma partitions_sorted entries :
  NoDup (fst <$> entries) ->
  StronglySorted (fun p q => label_lt p.1 q.1) (partitions strptime_ok entries).
Proof.
  intros Hnd. unfold partitions.
  destruct (date_dirs strptime_ok entries) as [|d0 dirs] eqn:Hd; [by repeat constructor|].
  rewrite <- Hd. apply sorted_distinct.
  - rewrite sort_by_perm. eapply sublist_NoDup; [done | apply date_dirs_names].
  - apply (sort_by_sorted (fun a b : string * list (string * node) => String.leb a.1 b.1)).
    + intros a b. apply String.leb_total.
    + intros a b c. apply string_leb_trans.
Qed.

End Partitions.

Lemma tagged_elem parts : forall sched,
  tagged parts = Some sched ->
  forall label e, (label, e) ∈ sched <->
    exists es, (label, es) ∈ parts /\ e ∈ es /\ slot_name e.1.
Proof.
  induction parts as [|[label' es'] parts IH]; intros sched H label e.
  - rewrite tagged_nil in H. injection H as <-. split.
    + intros Hin. by apply elem_of_nil in Hin.
    + intros (es & Hin & _). by apply elem_of_nil in Hin.
  - rewrite tagged_cons in H. destruct (slot_files es') as [files|] eqn:Hf; [|discriminate].
    destruct (tagged parts) as [rest|]; [|discriminate]. injection H as <-.
    rewrite elem_of_app, list_elem_of_fmap, (IH rest eq_refl). split.
    + intros [(e' & [= <- <-] & Hin)|(es & Hin & He)].
      * exists es'. split; [by left|]. by apply (slot_files_elem es' files).
      * exists es. split; [by right | done].
    + intros (es & Hin & He & Hs). apply elem_of_cons in Hin as [[= <- <-]|Hin].
      * left. exists e. split; [done|]. by apply (slot_files_elem es files).
      * right. by exists es.
Qed.

Lemma tagged_labels parts : forall sched,
  tagged parts = Some sched ->
  forall x, x ∈ sched -> exists p, p ∈ parts /\ x.1 = p.1.
Proof.
  intros sched H [label e] Hin. apply (tagged_elem parts sched H) in Hin as (es & Hin & _).
  by exists (label, es).
Qed.

Lemma tagged_sorted parts : forall sched,
  StronglySorted (fun p q => label_lt p.1 q.1) parts ->
  tagged parts = Some sched ->
  StronglySorted runs_before (path_of <$> sched).
Proof.
  induction parts as [|[label es] parts IH]; intros sched Hs H.
  - rewrite tagged_nil in H. injection H as <-. constructor.
  - rewrite tagged_cons in H. destruct (slot_files es) as [files|] eqn:Hf; [|discriminate].
    destruct (tagged parts) as [rest|] eqn:Hrest; [|discriminate]. injection H as <-.
    apply StronglySorted_inv in Hs as [Hs Hall].
    rewrite fmap_app. apply StronglySorted_app_2.
    + intros x y Hx Hy. apply list_elem_of_fmap in Hx as (x' & -> & Hx).
      apply list_elem_of_fmap in Hx as (e & -> & He).
      apply list_elem_of_fmap in Hy as (y' & -> & Hy).
      destruct (tagged_labels parts rest Hrest y' Hy) as (q & Hq & Hlab).
      rewrite Forall_forall in Hall. specialize (Hall q Hq). cbn [fst] in Hall.
      unfold runs_before, path_of. cbn [fst snd]. rewrite Hlab.
      destruct label as [a|], (q.1) as [b|]; cbn in Hall; try done.
      destruct Hall as [Hne Hle]. apply String.eqb_neq in Hne. by rewrite Hne.
    + apply slot_files_sorted in Hf. clear -Hf.
      induction Hf as [|e files Hs IH Hall]; cbn; constructor; [done|].
      apply Forall_fmap, Forall_fmap. eapply Forall_impl; [exact Hall|]. intros f Hle.
      unfold runs_before, path_of. cbn. destruct label as [a|]; [|done].
      by rewrite String.eqb_refl.
    + by apply IH.
Qed.

(** ** Runs of [process_directory] *)

Section Runs.
Variable strptime_ok : string -> bool.
Variable to_sql_ok : list (list aircraft) -> list aircraft -> bool.

Lemma batch_inv_start :
  batch_inv {| b_total := 0; b_cleanup := []; b_inserted := [] |}.
Proof. split; [reflexivity | constructor]. Qed.

Lemma process_directory_finished entries cleanup n :
  returned (process_directory strptime_ok to_sql_ok (Some (Folder entries)) cleanup) = inr n ->
  exists sched,
    schedule strptime_ok entries = Some sched /\
    db_inserted (process_directory strptime_ok to_sql_ok (Some (Folder entries)) cleanup) =
      filter (fun rows => rows <> []) (rows_of <$> sched) /\
    n = total_records ((fun x => file_at x.2.2) <$> sched) /\
    remove_calls (process_directory strptime_ok to_sql_ok (Some (Folder entries)) cleanup) =
      (if cleanup then path_of <$> sched else []).
Proof.
  unfold process_directory, schedule.
  destruct (for_date_dirs to_sql_ok cleanup (partitions strptime_ok entries) _)
    as [st [e|]] eqn:Hrun; cbn [returned db_inserted remove_calls]; [discriminate|].
  intros [= <-]. apply for_date_dirs_done in Hrun as (sched & Hs & Hi & Ht & Hc).
  cbn [b_total b_cleanup b_inserted] in *. exists sched. rewrite Hi, Ht, Hc. cbn.
  repeat (split; [done|]). by destruct cleanup.
Qed.

(** X10. The number [process_directory] returns is the number of rows it
    has handed to the database; and whatever happens, also in a run that
    ends in an exception, every batch handed over has at least one row:
    an empty parse result is never inserted. *)
Theorem X10_count_is_rows_inserted root cleanup :
  let r := process_directory strptime_ok to_sql_ok root cleanup in
  Forall (fun rows => rows <> []) (db_inserted r) /\
  forall n, returned r = inr n -> n = length (concat (db_inserted r)).
Proof.
  destruct root as [[contents|entries]|]; cbn zeta.
  - split; [constructor|]. by intros n [= <-].
  - unfold process_directory.
    destruct (for_date_dirs to_sql_ok cleanup (partitions strptime_ok entries) _)
      as [st r] eqn:Hrun.
    apply for_date_dirs_inv in Hrun; [|apply batch_inv_start].
    destruct Hrun as [Ht Hall].
    destruct r as [e|]; cbn [returned db_inserted]; (split; [done|]); [done|].
    by intros n [= <-].
  - split; [constructor|]. by intros n [= <-].
Qed.

(** X11. A run over a directory that returns a count has parsed exactly
    the scheduled files, in order: the batches in the database are their
    non-empty parse results, the count is their total, and with
    [cleanup_files] every scheduled file is handed to [os.remove], also
    one whose parse gave no rows; without it none is. *)
Theorem X11_finished_run entries cleanup n :
  returned (process_directory strptime_ok to_sql_ok (Some (Folder entries)) cleanup) = inr n ->
  exists sched,
    schedule strptime_ok entries = Some sched /\
    db_inserted (process_directory strptime_ok to_sql_ok (Some (Folder entries)) cleanup) =
      filter (fun rows => rows <> []) (rows_of <$> sched) /\
    n = total_records ((fun x => file_at x.2.2) <$> sched) /\
    remove_calls (process_directory strptime_ok to_sql_ok (Some (Folder entries)) cleanup) =
      (if cleanup then path_of <$> sched else []).
Proof. apply process_directory_finished. Qed.

(** X12. What ends a run in an exception, and what that costs: nothing is
    removed then, although batches may already be in the database. A
    [ValueError] comes from a name in a partition that [isdigit] accepts
    and [int] rejects, the other exception from a kept file whose rows the
    database refused after the batches before it; and such a name in any
    partition means the run returns no count. *)
Theorem X12_what_aborts_a_run entries cleanup :
  let r := process_directory strptime_ok to_sql_ok (Some (Folder entries)) cleanup in
  (forall e, returned r = inl e -> remove_calls r = []) /\
  (returned r = inl ValueError ->
   exists label es e, (label, es) ∈ partitions strptime_ok entries /\ e ∈ es /\
                      bad_name e.1) /\
  (returned r = inl LoaderError ->
   exists label es e, (label, es) ∈ partitions strptime_ok entries /\ e ∈ es /\
                      slot_name e.1 /\ parse_binary_file (file_at e.2) <> [] /\
                      to_sql_ok (db_inserted r) (parse_binary_file (file_at e.2)) = false) /\
  ((exists label es e, (label, es) ∈ partitions strptime_ok entries /\ e ∈ es /\
                       bad_name e.1) ->
   exists e, returned r = inl e).
Proof.
  cbn zeta. unfold process_directory.
  destruct (for_date_dirs to_sql_ok cleanup (partitions strptime_ok entries) _)
    as [st r] eqn:Hrun.
  split; [|split; [|split]].
  - intros e. by destruct r.
  - destruct r as [e|]; cbn [returned]; [|discriminate]. intros [= ->].
    apply for_date_dirs_fail in Hrun as (label & es & Hin & Hs).
    apply slot_files_None in Hs as (e & He & Hb). by exists label, es, e.
  - destruct r as [e|]; cbn [returned]; [|discriminate]. intros [= ->].
    apply for_date_dirs_fail in Hrun as (label & es & Hin & files & f & Hs & Hf & Hr & Hsql).
    apply (slot_files_elem es files Hs) in Hf as [Hf Hn]. by exists label, es, f.
  - intros (label & es & e & Hin & He & Hb).
    destruct (for_date_dirs_bad to_sql_ok cleanup (partitions strptime_ok entries)
                {| b_total := 0; b_cleanup := []; b_inserted := [] |} label es Hin)
      as (st' & e' & Hrun').
    { apply slot_files_None. by exists e. }
    rewrite Hrun' in Hrun. injection Hrun as <- <-. by exists e'.
Qed.

(** X13. Which files a finished run with [cleanup_files] removes, and so
    which it has parsed: the entries whose name is a decimal numeral of
    value at most 47, leading zeros allowed, that lie in a date directory
    of the root or, only when the root has no date directory, in the root
    itself. Hidden names, other names and numbers above 47 are left alone,
    and slot files beside a date directory are too. *)
Theorem X13_files_of_a_run entries n :
  returned (process_directory strptime_ok to_sql_ok (Some (Folder entries)) true) = inr n ->
  forall label name,
    (label, name) ∈
      remove_calls (process_directory strptime_ok to_sql_ok (Some (Folder entries)) true) <->
    slot_name name /\
    exists nd,
      (label = None /\ date_dirs strptime_ok entries = [] /\ (name, nd) ∈ entries) \/
      (exists d es, label = Some d /\ (d, Folder es) ∈ entries /\
                    is_date_dir strptime_ok (d, Folder es) = true /\ (name, nd) ∈ es).
Proof.
  intros Hret label name.
  destruct (process_directory_finished entries true n Hret) as (sched & Hs & _ & _ & ->).
  rewrite list_elem_of_fmap. split.
  - intros ([label' [name' nd]] & [= -> ->] & Hin).
    apply (tagged_elem _ sched Hs) in Hin as (es & Hp & He & Hn). split; [exact Hn|].
    exists nd. apply partitions_elem in Hp as [(-> & -> & Hd)|(d & -> & Hin & Hd)].
    + by left.
    + right. by exists d, es.
  - intros [Hn (nd & H)]. exists (label, (name, nd)). split; [done|].
    apply (tagged_elem _ sched Hs). destruct H as [(-> & Hd & Hin)|(d & es & -> & Hin & Hd & He)].
    + exists entries. split; [|done]. apply partitions_elem. by left.
    + exists es. split; [|done]. apply partitions_elem. right. by exists d.
Qed.

(** X14. The order of a finished run, read off the removals: date
    directories by name, and inside one directory the files by the number
    their name stands for, not by the name as a string, so that 9 comes
    before 10. The names of a directory are distinct. *)
Theorem X14_order_of_a_run entries n :
  NoDup (fst <$> entries) ->
  returned (process_directory strptime_ok to_sql_ok (Some (Folder entries)) true) = inr n ->
  StronglySorted runs_before
    (remove_calls (process_directory strptime_ok to_sql_ok (Some (Folder entries)) true)).
Proof.
  intros Hnd Hret.
  destruct (process_directory_finished entries true n Hret) as (sched & Hs & _ & _ & ->).
  eapply tagged_sorted; [|exact Hs]. by apply partitions_sorted.
Qed.

End Runs.

(** ** The names [int] rejects, and [main] *)

Lemma isdigit_char_split c : isdigit_char c = decimal_char c || superscript c.
Proof. unfold isdigit_char, decimal_char, superscript. cbn zeta. by rewrite !orb_assoc. Qed.

Lemma superscript_not_decimal c : superscript c = true -> decimal_char c = false.
Proof.
  unfold superscript, decimal_char. cbn zeta. generalize (N_of_ascii c). intros n H.
  apply orb_true_iff in H as [H|H]; [apply orb_true_iff in H as [H|H]|];
    apply N.eqb_eq in H; subst n; reflexivity.
Qed.

Lemma uint_of_char_decimal c d :
  DecimalString.uint_of_char c (Some d) <> None <-> decimal_char c = true.
Proof.
  destruct c as [[] [] [] [] [] [] [] []]; cbn; split; intros H; try done.
Qed.

Lemma uint_of_char_None c : DecimalString.uint_of_char c None = None.
Proof. by destruct c as [[] [] [] [] [] [] [] []]. Qed.

Lemma uint_of_string_decimal s :
  DecimalString.NilEmpty.uint_of_string s <> None <-> all_chars decimal_char s = true.
Proof.
  induction s as [|c s IH]; [done|].
  cbn [DecimalString.NilEmpty.uint_of_string]. unfold all_chars in *.
  cbn [list_ascii_of_string forallb]. rewrite andb_true_iff, <- IH.
  destruct (DecimalString.NilEmpty.uint_of_string s) as [d|].
  - rewrite uint_of_char_decimal. split; [by intros ? | by intros [? _]].
  - rewrite uint_of_char_None. split; [done | by intros [_ ?]].
Qed.

Lemma decimal_value_None s :
  decimal_value s = None <-> all_chars decimal_char s = false.
Proof.
  unfold decimal_value. rewrite fmap_None.
  pose proof (uint_of_string_decimal s) as H.
  destruct (DecimalString.NilEmpty.uint_of_string s), (all_chars decimal_char s);
    split; try done; intros _; exfalso.
  - by assert (false = true) by by apply H.
  - by apply H.
Qed.

Lemma all_chars_false (P : ascii -> bool) s :
  all_chars P s = false <-> exists c, In c (list_ascii_of_string s) /\ P c = false.
Proof.
  unfold all_chars. induction (list_ascii_of_string s) as [|c l IH]; cbn.
  - split; [done | by intros (c & [] & _)].
  - rewrite andb_false_iff, IH. split.
    + intros [H|(c' & Hin & H)]; [exists c; by split; [left|] | exists c'; by split; [right|]].
    + intros (c' & [->|Hin] & H); [by left | right; by exists c'].
Qed.

Lemma all_chars_In (P : ascii -> bool) s c :
  all_chars P s = true -> In c (list_ascii_of_string s) -> P c = true.
Proof. unfold all_chars. rewrite forallb_forall. auto. Qed.

(** X15. What the filter does with a name whose characters all lie below
    U+0100, the names of this model. Among them it keeps exactly the
    decimal numerals of value at most 47, whatever their length; and [int]
    raises in it exactly on those made of digit characters of which at
    least one is a superscript two, three or one, which [isdigit] accepts.
    Names with later characters are not covered. *)
Theorem X15_filter_on_names name :
  (is_slot name = Some true <-> slot_name name) /\
  (is_slot name = None <->
   all_chars isdigit_char name = true /\
   exists c, In c (list_ascii_of_string name) /\ superscript c = true).
Proof.
  split; [apply is_slot_true|].
  rewrite is_slot_None, decimal_value_None, all_chars_false. split.
  - intros [Hd (c & Hin & Hc)].
    assert (all_chars isdigit_char name = true) as Hall by by destruct name.
    split; [done|]. exists c. split; [done|].
    pose proof (all_chars_In _ _ c Hall Hin) as Hi.
    rewrite isdigit_char_split, Hc in Hi. exact Hi.
  - intros [Hall (c & Hin & Hc)]. split.
    + destruct name; [by destruct Hin | exact Hall].
    + exists c. split; [done | by apply superscript_not_decimal].
Qed.

Section Main.
Variable strptime_ok : string -> bool.
Variable to_sql_ok : list (list aircraft) -> list aircraft -> bool.
Variable setup_logging_ok create_engine_ok finalize_ok drop_ok : bool.




End Main.

(** ** The properties at the example tree *)

(** X11 at the example tree: two rows, from the files 9 and 10 of the
    later directory; the unreadable file 07 of the earlier one is
    scheduled and removed with them. *)
Lemma X11_finished_run_witness :
  returned example_run = inr 2%nat /\
  exists sched,
    schedule (fun _ => true) example_root = Some sched /\
    db_inserted example_run = filter (fun rows => rows <> []) (rows_of <$> sched) /\
    2%nat = total_records ((fun x => file_at x.2.2) <$> sched) /\
    remove_calls example_run = path_of <$> sched.
Proof.
  assert (H : returned example_run = inr 2%nat) by (vm_compute; reflexivity).
  split; [exact H|].
  exact (X11_finished_run (fun _ => true) (fun _ _ => true) example_root true 2%nat H).
Defined.

(** X13 at the example tree. *)
Lemma X13_files_of_a_run_witness :
  returned example_run = inr 2%nat /\
  forall label name,
    (label, name) ∈ remove_calls example_run <->
    slot_name name /\
    exists nd,
      (label = None /\ date_dirs (fun _ => true) example_root = [] /\
       (name, nd) ∈ example_root) \/
      (exists d es, label = Some d /\ (d, Folder es) ∈ example_root /\
                    is_date_dir (fun _ => true) (d, Folder es) = true /\ (name, nd) ∈ es).
Proof.
  assert (H : returned example_run = inr 2%nat) by (vm_compute; reflexivity).
  split; [exact H|].
  exact (X13_files_of_a_run (fun _ => true) (fun _ _ => true) example_root 2%nat H).
Defined.

(** X14 at the example tree. *)
Lemma X14_order_of_a_run_witness :
  NoDup (fst <$> example_root) /\
  returned example_run = inr 2%nat /\
  StronglySorted runs_before (remove_calls example_run).
Proof.
  assert (Hnd : NoDup (fst <$> example_root)) by (refine (bool_decide_unpack (NoDup (fst <$> example_root)) _); vm_compute; reflexivity).
  assert (H : returned example_run = inr 2%nat) by (vm_compute; reflexivity).
  split; [exact Hnd|]. split; [exact H|].
  exact (X14_order_of_a_run (fun _ => true) (fun _ _ => true) example_root 2%nat Hnd H).
Defined.
